(** * NDI marker pipeline: identity tracking and resampling

    A shallow embedding of [label_markers] and [interpolate_data] from
    [NDI_data_process.py], with the constants of [config.py].

    Numbers.  The script computes on float64 values read from a CSV file.
    Here every coordinate and every timestamp is an exact rational ([Q]):
    every finite float is one, and the arithmetic below is the exact
    arithmetic the floating-point operations approximate.  Rounding, NaN
    and infinities are outside the model.

    Frames.  A pandas DataFrame is a rectangular table; it is kept row-major
    as a list of rows, together with its number of columns (a frame without
    rows still has columns).  Column [x1] is position 0, [y1] position 1 and
    so on, which is the layout [clean_csv] writes. *)

From Stdlib Require Import QArith Qround ZArith Lia Reals Qreals Lra.
From stdpp Require Import base option list strings pretty.

Local Open Scope nat_scope.

(** ** Outcomes of a run *)

(** The ways one of the two stages ends without writing its output file:
    the two silent [return]s of [label_markers] (each after a printed
    warning), its [RuntimeError], and the exceptions numpy, pandas and scipy
    raise on the paths modelled here. *)
Inductive exit : Type :=
  | NotEnoughColumns (got : nat)
  | InitialMarkerCount (found : nat)
  | MarkerLostTrack (idx : nat)
  | IndexError
  | KeyError
  | ValueError.

Inductive outcome (A : Type) : Type :=
  | Done (a : A)
  | Abort (e : exit).

Arguments Done {A} a.
Arguments Abort {A} e.

#[export] Instance outcome_ret : MRet outcome := fun A a => Done a.
#[export] Instance outcome_bind : MBind outcome := fun A B f o =>
  match o with
  | Done a => f a
  | Abort e => Abort e
  end.

(** [for idx in idxs: body], where the body may end the run. *)
Fixpoint for_each {S : Type} (body : nat -> S -> outcome S)
    (idxs : list nat) (st : S) : outcome S :=
  match idxs with
  | [] => Done st
  | idx :: rest =>
      match body idx st with
      | Done st' => for_each body rest st'
      | Abort e => Abort e
      end
  end.

(** ** Data *)

Definition point : Type := (Q * Q * Q)%type.
Abbreviation row := (list Q).

Record DataFrame : Type := mkDataFrame {
  columns : nat;
  data : list row
}.

(** Every row of a frame has one value per column. *)
Definition rectangular (df : DataFrame) : Prop :=
  Forall (fun r : row => length r = columns df) (data df).

Inductive marker_id : Type := marker1 | marker2.

Definition other (id : marker_id) : marker_id :=
  match id with marker1 => marker2 | marker2 => marker1 end.

(** The dictionary [prev_pos].  Both entries start as [(None, None, None)],
    written [None] here. *)
Record PrevPos : Type := mkPrevPos {
  prev1 : option point;
  prev2 : option point
}.

Definition prev_of (pp : PrevPos) (id : marker_id) : option point :=
  match id with marker1 => prev1 pp | marker2 => prev2 pp end.

(** [prev_pos.items()], in insertion order. *)
Definition items (pp : PrevPos) : list (marker_id * option point) :=
  [(marker1, prev1 pp); (marker2, prev2 pp)].

(** Column positions of the six labelled coordinates. *)
Definition x1 : nat := 0.
Definition y1 : nat := 1.
Definition z1 : nat := 2.
Definition x2 : nat := 3.
Definition y2 : nat := 4.
Definition z2 : nat := 5.

(** ** Numeric tests *)

Definition Qltb (a b : Q) : bool := negb (Qle_bool b a).
Definition Qis_zero (a : Q) : bool := Qeq_bool a 0.

(** [x == 0 and y == 0 and z == 0] *)
Definition is_sentinel (p : point) : bool :=
  let '(x, y, z) := p in Qis_zero x && Qis_zero y && Qis_zero z.

(** The square of [np.linalg.norm(marker_array - prev_marker_array)]. *)
Definition dist_sq (p q : point) : Q :=
  let '(px, py, pz) := p in
  let '(qx, qy, qz) := q in
  ((px - qx) * (px - qx) + (py - qy) * (py - qy) + (pz - qz) * (pz - qz))%Q.

(** [np.linalg.norm(marker_array - prev_marker_array)] as a real number.
    It is not computable and serves only to justify [within] below. *)
Definition norm (p q : point) : R := sqrt (Q2R (dist_sq p q)).

(** [dist < max_position_change].  A norm is never negative, so the test
    holds exactly when the bound is positive and the squares compare
    (lemma [within_norm]). *)
Definition within (max_position_change : Q) (p q : point) : bool :=
  Qltb 0 max_position_change
  && Qltb (dist_sq p q) (max_position_change * max_position_change).

(** ** label_markers *)

(** The points of a row: the complete [(x_i, y_i, z_i)] groups, for
    [i] in [range(1, len(row.index) // 3 + 1)]. *)
Fixpoint triples (r : row) : list point :=
  match r with
  | x :: y :: z :: rest => (x, y, z) :: triples rest
  | _ => []
  end.

(** The list [markers]: the points that are not all-zero. *)
Definition group_markers (r : row) : list point :=
  filter (fun p => is_sentinel p = false) (triples r).

Definition candidate : Type := (point * marker_id)%type.

(** The inner loop over [prev_pos.items()] for one point.  The third
    component of the recorded tuple (the distance) is never read again and
    is left out. *)
Definition match_marker (max_position_change : Q) (pp : PrevPos)
    (distances : list candidate) (marker : point) : list candidate :=
  fold_left
    (fun acc (entry : marker_id * option point) =>
       match entry.2 with
       | Some prev_marker =>
           if within max_position_change marker prev_marker
           then acc ++ [(marker, entry.1)]
           else acc
       | None => acc
       end)
    (items pp) distances.

(** The outer loop over [markers], starting from [distances = []]. *)
Definition collect (max_position_change : Q) (pp : PrevPos)
    (markers : list point) : list candidate :=
  fold_left (match_marker max_position_change pp) markers [].

(** [labelled.iloc[idx]] *)
Definition iloc (labelled : list row) (idx : nat) : outcome row :=
  match labelled !! idx with
  | Some r => Done r
  | None => Abort IndexError
  end.

(** [labelled.at[idx, col] = v] for a row and a column that exist. *)
Definition at_set (labelled : list row) (idx col : nat) (v : Q) : list row :=
  match labelled !! idx with
  | Some r => <[idx := <[col := v]> r]> labelled
  | None => labelled
  end.

(** [r[[cx, cy, cz]].values] *)
Definition values3 (r : row) (cx cy cz : nat) : outcome point :=
  match r !! cx, r !! cy, r !! cz with
  | Some x, Some y, Some z => Done (x, y, z)
  | _, _, _ => Abort KeyError
  end.

Record state : Type := mkState {
  labelled : list row;
  prev_pos : PrevPos
}.

(** Writing one identity's three coordinates into row [idx]. *)
Definition bind_marker (lab : list row) (idx : nat) (id : marker_id)
    (p : point) : list row :=
  let '(x, y, z) := p in
  match id with
  | marker1 => at_set (at_set (at_set lab idx x1 x) idx y1 y) idx z1 z
  | marker2 => at_set (at_set (at_set lab idx x2 x) idx y2 y) idx z2 z
  end.

(** The body of the loop [for idx in range(1, len(labelled))]. *)
Definition iteration (max_position_change : Q) (idx : nat) (st : state)
    : outcome state :=
  r ← iloc (labelled st) idx;
  let markers := group_markers r in
  if idx =? 1 then
    match markers with
    | [m0; m1] =>
        Done (mkState (labelled st) (mkPrevPos (Some m0) (Some m1)))
    | _ => Abort (InitialMarkerCount (length markers))
    end
  else
    let distances := collect max_position_change (prev_pos st) markers in
    match distances with
    | [(curr_pos, id); (second, _)] =>
        let lab := bind_marker (labelled st) idx id curr_pos in
        let lab := bind_marker lab idx (other id) second in
        r' ← iloc lab idx;
        p1 ← values3 r' x1 y1 z1;
        r'' ← iloc lab idx;
        p2 ← values3 r'' x2 y2 z2;
        Done (mkState lab (mkPrevPos (Some p1) (Some p2)))
    | _ => Abort (MarkerLostTrack idx)
    end.

(** [labelled.iloc[:, :6]] *)
Definition first_six (df : DataFrame) : DataFrame :=
  mkDataFrame (Nat.min 6 (columns df)) (map (take 6) (data df)).

(** The whole stage.  [Done] carries the frame written to the labelled
    file; no file is written on any [Abort]. *)
Definition label_markers (max_position_change : Q) (df : DataFrame)
    : outcome DataFrame :=
  if columns df <? 6 then Abort (NotEnoughColumns (columns df))
  else
    st ← for_each (iteration max_position_change)
          (seq 1 (length (data df) - 1))
          (mkState (data df) (mkPrevPos None None));
    Done (first_six (mkDataFrame (columns df) (labelled st))).

(** ** Reading a labelled row back *)

Definition base_col (id : marker_id) : nat :=
  match id with marker1 => x1 | marker2 => x2 end.

(** The triple a row holds for one identity, if the row is wide enough. *)
Definition row_pos (r : row) (id : marker_id) : option point :=
  match values3 r (base_col id) (base_col id + 1) (base_col id + 2) with
  | Done p => Some p
  | Abort _ => None
  end.

(** A row after one identity's three cells were overwritten. *)
Definition write3 (r : row) (id : marker_id) (p : point) : row :=
  let '(x, y, z) := p in
  <[base_col id + 2 := z]> (<[base_col id + 1 := y]> (<[base_col id := x]> r)).

(** Position of an identity in [markers] at initialization. *)
Definition slot (id : marker_id) : nat :=
  match id with marker1 => 0 | marker2 => 1 end.

(** ** The candidate list as the specification words it

    "For every non-sentinel point in the frame ... every Identity's
    PreviousPositionState; record a candidate pair (point, identity) when
    distance < max_position_change.  Iterate points outer, identities
    inner ... without deduplicating". *)
Definition candidate_pairs (max_position_change : Q) (pp : PrevPos)
    (points : list point) : list candidate :=
  flat_map
    (fun p =>
       flat_map
         (fun id =>
            match prev_of pp id with
            | Some q => if within max_position_change p q then [(p, id)] else []
            | None => []
            end)
         [marker1; marker2])
    points.

(** ** Notions used in the statements *)

(** The row an update leaves at [idx]. *)
Definition updated_row (r : row) (c1 c2 : candidate) : row :=
  write3 (write3 r c1.2 c1.1) (other c1.2) c2.1.

(** The state before the loop. *)
Definition start (df : DataFrame) : state :=
  mkState (data df) (mkPrevPos None None).

(** The position an identity holds at row [t]: at the initialization row
    the point it was bound to, afterwards the triple written to the row. *)
Definition resolved (df : DataFrame) (lab : list row) (t : nat)
    (id : marker_id) : option point :=
  if t =? 1 then r ← data df !! 1; group_markers r !! slot id
  else r ← lab !! t; row_pos r id.

(** Row [t] was bound through two gated candidates: the identity [id1] of
    the first stayed within the gate of its own previous position, and the
    other identity received a point within the gate of the previous
    position of the identity [id2] the second candidate records. *)
Definition gated_step (m : Q) (df : DataFrame) (lab : list row) (t : nat)
    : Prop :=
  exists id1 id2 p1 q1 p2 q2,
    resolved df lab t id1 = Some p1 /\
    resolved df lab (t - 1) id1 = Some q1 /\
    within m p1 q1 = true /\
    resolved df lab t (other id1) = Some p2 /\
    resolved df lab (t - 1) id2 = Some q2 /\
    within m p2 q2 = true.

(** Identity continuity as the specification states it, on the rows of a
    labelled frame. *)
Definition continuous (m : Q) (out : DataFrame) : Prop :=
  forall t id r r' p q,
    0 < t ->
    data out !! t = Some r ->
    data out !! (t - 1) = Some r' ->
    row_pos r id = Some p ->
    row_pos r' id = Some q ->
    within m p q = true.

(** The loop invariant, indexed by the next row [k] to process. *)
Definition tracked (m : Q) (df : DataFrame) (k : nat) (st : state) : Prop :=
  length (labelled st) = length (data df) /\
  (forall j, j < 2 \/ k <= j -> labelled st !! j = data df !! j) /\
  Forall (fun r : row => 6 <= length r) (labelled st) /\
  (2 <= k -> forall id,
     prev_of (prev_pos st) id = resolved df (labelled st) (k - 1) id) /\
  (forall t, 2 <= t < k -> gated_step m df (labelled st) t) /\
  (forall t id p, 2 <= t < k -> resolved df (labelled st) t id = Some p ->
     is_sentinel p = false).

(** ** Configuration (config.py) *)

(** The default of [max_position_change], in millimetres. *)
Definition NDI_MAX_POSITION_CHANGE : Q := 5.
Definition NDI_ORIGINAL_FRAME_RATE : Q := 60.
Definition NDI_DESIRED_FRAME_RATE : Q := 100.

(** ** numpy and pandas helpers of the resampler *)

Definition of_nat (n : nat) : Q := inject_Z (Z.of_nat n).

(** [np.arange(n)] *)
Definition arange_n (n : nat) : list Q := map of_nat (seq 0 n).

(** [np.arange(start, stop, step)]: [ceil((stop - start) / step)] values
    [start + j * step]; none when that number is not positive. *)
Definition arange (start stop step : Q) : list Q :=
  map (fun j => (start + of_nat j * step)%Q)
      (seq 0 (Z.to_nat (Qceiling ((stop - start) / step)))).

(** [a[-1]] *)
Definition last_item (a : list Q) : outcome Q :=
  match last a with
  | Some v => Done v
  | None => Abort IndexError
  end.

(** [df[column]] for the column at position [c]. *)
Definition column_values (df : DataFrame) (c : nat) : list Q :=
  map (fun r : row => nth c r 0%Q) (data df).

(** [pd.DataFrame(interpolated_data)] for equally long columns. *)
Definition from_columns (cols : list (list Q)) : DataFrame :=
  mkDataFrame (length cols)
    match cols with
    | [] => []
    | c :: _ =>
        map (fun j => map (fun col : list Q => nth j col 0%Q) cols)
            (seq 0 (length c))
    end.

(** ** interpolate_data *)

Section Resampler.

(** The two frame rates the module reads from its configuration. *)
Variables ORIGINAL_FRAME_RATE DESIRED_FRAME_RATE : Q.

(** scipy's cubic spline through the samples [(x_i, y_i)], evaluated at a
    point of the source range, and what it returns for a point outside
    that range under [fill_value='extrapolate']. *)
Variables spline extrapolate : list Q -> list Q -> Q -> Q.

(** Whether [t] lies in the closed range of the source abscissae. *)
Definition in_range (x : list Q) (t : Q) : bool :=
  match head x, last x with
  | Some a, Some b => Qle_bool a t && Qle_bool t b
  | _, _ => false
  end.

(** The curve fitted to [(x, y)], defined on the whole line. *)
Definition evaluate (x y : list Q) (t : Q) : Q :=
  if in_range x t then spline x y t else extrapolate x y t.

(** [interpolate.interp1d(x, y, kind='cubic', bounds_error=False,
    fill_value='extrapolate')].  scipy raises [ValueError] when the two
    arrays differ in length and when there are fewer than four points, the
    least a cubic spline takes; otherwise it returns the fitted curve. *)
Definition interp1d (x y : list Q) : outcome (Q -> Q) :=
  if negb (length x =? length y) then Abort ValueError
  else if length x <? 4 then Abort ValueError
  else Done (evaluate x y).

Definition original_time (n : nat) : list Q :=
  map (fun v => (v / ORIGINAL_FRAME_RATE)%Q) (arange_n n).

Definition desired_time (stop : Q) : list Q :=
  arange 0 stop (1 / DESIRED_FRAME_RATE).

(** The body of [for column in df.columns], appending the resampled
    column to the ones gathered so far. *)
Definition interpolate_column (df : DataFrame) (x new_x : list Q)
    (c : nat) (interpolated_data : list (list Q))
    : outcome (list (list Q)) :=
  f ← interp1d x (column_values df c);
  Done (interpolated_data ++ [map f new_x]).

(** The whole stage; [Done] carries the frame written to the output
    file. *)
Definition interpolate_data (df : DataFrame) : outcome DataFrame :=
  let x := original_time (length (data df)) in
  stop ← last_item x;
  let new_x := desired_time stop in
  interpolated_data ←
    for_each (interpolate_column df x new_x) (seq 0 (columns df)) [];
  Done (from_columns interpolated_data).

End Resampler.

(** ** Sample frames *)

Local Open Scope Q_scope.

(** Two points next to identity 1 in row 2, none next to identity 2. *)
Definition crowded : DataFrame :=
  mkDataFrame 6
    [ [1; 1; 1; 100; 0; 0];
      [1; 1; 1; 100; 0; 0];
      [1; 1; 2; 1; 1; 3] ].

(** The state in which the loop reaches row 2 of [crowded]. *)
Definition crowded_after_init : state :=
  mkState (data crowded) (mkPrevPos (Some (1, 1, 1)) (Some (100, 0, 0))).

(** No detection at all in the first row. *)
Definition blank_first : DataFrame :=
  mkDataFrame 6
    [ [0; 0; 0; 0; 0; 0];
      [1; 1; 1; 2; 2; 2] ].

(** Two detections in the first row, one in the second. *)
Definition thin_second : DataFrame :=
  mkDataFrame 6
    [ [1; 1; 1; 2; 2; 2];
      [1; 1; 1; 0; 0; 0] ].

(** Three raw points per row; the first slot is empty in rows 0 and 1. *)
Definition three_slots : DataFrame :=
  mkDataFrame 9
    [ [0; 0; 0; 1; 1; 1; 100; 0; 0];
      [0; 0; 0; 1; 1; 1; 100; 0; 0];
      [1; 1; 2; 0; 0; 0; 100; 0; 1] ].

(** What [label_markers] writes for [three_slots] with a 5 mm gate. *)
Definition three_slots_labelled : DataFrame :=
  mkDataFrame 6
    [ [0; 0; 0; 1; 1; 1];
      [0; 0; 0; 1; 1; 1];
      [1; 1; 2; 100; 0; 1] ].

(** Each point of row 2 is within the gate of both identities. *)
Definition tangled : DataFrame :=
  mkDataFrame 6
    [ [1; 1; 1; 2; 2; 2];
      [1; 1; 1; 2; 2; 2];
      [2; 2; 2; 1; 1; 1] ].

(** A single row, seven columns wide, holding one detection. *)
Definition single_row : DataFrame :=
  mkDataFrame 7 [ [0; 0; 0; 4; 5; 6; 7] ].

(** Five labelled rows of two markers drifting along x. *)
Definition drift : DataFrame :=
  mkDataFrame 6
    [ [0; 1; 0; 9; 1; 0];
      [1; 1; 0; 10; 1; 0];
      [2; 1; 0; 11; 1; 0];
      [3; 1; 0; 12; 1; 0];
      [4; 1; 0; 13; 1; 0] ].

(** The first three rows of [drift]. *)
Definition drift_start : DataFrame :=
  mkDataFrame 6 (take 3 (data drift)).

(** A stand-in for the fitted curve in the examples: the sample whose
    abscissa is the last one not above [t] (the first sample if none). *)
Fixpoint hold (x y : list Q) (t : Q) : Q :=
  match x, y with
  | a :: x', b :: y' =>
      match x' with
      | a' :: _ => if Qle_bool a' t then hold x' y' t else b
      | [] => b
      end
  | _, _ => 0
  end.

Local Close Scope Q_scope.

(** ** Further notions for the tracker *)

(** The three cells of a point, in column order. *)
Definition coords (p : point) : row := let '(x, y, z) := p in [x; y; z].

(** The row an update leaves when it binds [cur.1] to identity 1 and
    [cur.2] to identity 2. *)
Definition relabel (r : row) (cur : point * point) : row :=
  coords cur.1 ++ coords cur.2 ++ drop 6 r.

(** Row [r] shows exactly the two markers at [cur], in either order, each
    within the gate of its own previous position and outside the gate of the
    other's. *)
Definition follows (m : Q) (prev : point * point) (r : row)
    (cur : point * point) : Prop :=
  (group_markers r = [cur.1; cur.2] \/ group_markers r = [cur.2; cur.1]) /\
  within m cur.1 prev.1 = true /\ within m cur.2 prev.2 = true /\
  within m cur.1 prev.2 = false /\ within m cur.2 prev.1 = false.

(** [follows] along consecutive rows. *)
Fixpoint separated (m : Q) (prev : point * point) (rows : list row)
    (track : list (point * point)) : Prop :=
  match rows, track with
  | [], [] => True
  | r :: rows', cur :: track' =>
      follows m prev r cur /\ separated m cur rows' track'
  | _, _ => False
  end.

(** Every position written before row [k] is a detection of its own row. *)
Definition detections_only (m : Q) (df : DataFrame) (k : nat) (st : state)
    : Prop :=
  tracked m df k st /\
  forall t r id p,
    2 <= t < k -> data df !! t = Some r ->
    resolved df (labelled st) t id = Some p -> In p (group_markers r).

(** ** clean_csv *)

(** The frame [pd.read_csv(..., header=None, dtype=str, names=range(
    max_columns))] returns: every cell is a text or NaN ([None]), every row
    has [max_columns] cells. *)
Record RawFrame : Type := mkRawFrame {
  raw_columns : nat;
  raw_data : list (list (option string))
}.

Definition raw_rectangular (raw : RawFrame) : Prop :=
  Forall (fun r : list (option string) => length r = raw_columns raw)
         (raw_data raw).

(** The value the device writes for a coordinate it could not measure. *)
Definition MISSING : Q := (-3.697314e28)%Q.

(** The cell of a row at a column position. *)
Definition cell_at (r : list (option string)) (i : nat) : option string :=
  default None (r !! i).

(** [rows.iloc[:, i]] *)
Definition column_cells (rows : list (list (option string))) (i : nat)
    : list (option string) :=
  map (fun r => cell_at r i) rows.

(** One row of [df.iloc[:, cols]]. *)
Definition take_columns (cols : list nat) (r : list (option string))
    : list (option string) :=
  map (cell_at r) cols.

(** [df.replace([-3.697314E28, np.nan], 0)] on one cell. *)
Definition replace_missing (v : option Q) : Q :=
  match v with
  | None => 0%Q
  | Some q => if Qeq_bool q MISSING then 0%Q else q
  end.

(** [[f'x{i}', f'y{i}', f'z{i}']] *)
Definition axis_names (i : nat) : list string :=
  ["x" +:+ pretty i; "y" +:+ pretty i; "z" +:+ pretty i].

(** The list [new_columns] for a frame of [num_columns] columns. *)
Definition new_columns (num_columns : nat) : list string :=
  let num_points :=
    num_columns / 3 + (if num_columns mod 3 =? 0 then 0 else 1) in
  take num_columns (flat_map axis_names (seq 1 num_points)).

Section CleanCsv.

(** [pd.to_numeric] on one text: its number, or [None] when the text is
    not one ([errors='raise'] raises, [errors='coerce'] gives NaN). *)
Variable to_numeric : string -> option Q.

Definition numeric_cell (c : option string) : bool :=
  match c with
  | None => true
  | Some s => match to_numeric s with Some _ => true | None => false end
  end.

(** The local function [is_numeric_column]. *)
Definition is_numeric_column (col : list (option string)) : bool :=
  forallb numeric_cell col.

(** The list [keep_cols]. *)
Definition keep_cols (ncols : nat) (data_rows : list (list (option string)))
    : list nat :=
  List.filter (fun i => is_numeric_column (column_cells data_rows i))
              (seq 0 ncols).

(** [pd.to_numeric(..., errors='coerce')] on one cell. *)
Definition coerce (c : option string) : option Q := c ≫= to_numeric.

(** The positions, counted after the 42 metadata columns, of the raw
    columns that reach the output. *)
Definition selected (raw : RawFrame) : list nat :=
  match keep_cols (raw_columns raw - 42)
          (drop 1 (map (drop 42) (raw_data raw))) with
  | [] => seq 0 (raw_columns raw - 42)
  | keep => keep
  end.

(** The stage from the frame it has read to the header and the frame it
    writes. *)
Definition clean_csv (raw : RawFrame) : list string * DataFrame :=
  let df := map (drop 42) (raw_data raw) in
  let ncols := raw_columns raw - 42 in
  let keep := keep_cols ncols (drop 1 df) in
  let df := match keep with [] => df | _ => map (take_columns keep) df end in
  let ncols := match keep with [] => ncols | _ => length keep end in
  let df := drop 1 df in
  let df := map (map coerce) df in
  let df := map (map replace_missing) df in
  (new_columns ncols, mkDataFrame ncols df).

End CleanCsv.

(** ** Reading a cleaned row by column name *)

(** [row[label]] for a row whose index is the list of column names. *)
Definition series_get (index : list string) (r : row) (label : string)
    : outcome Q :=
  match list_find (fun name => name = label) index with
  | Some (i, _) =>
      match r !! i with
      | Some v => Done v
      | None => Abort KeyError
      end
  | None => Abort KeyError
  end.

(** The body of [for i in range(1, len(row.index) // 3 + 1)] in
    [label_markers], reading the three cells by name. *)
Definition marker_by_name (index : list string) (r : row) (i : nat)
    (markers : list point) : outcome (list point) :=
  x ← series_get index r ("x" +:+ pretty i);
  y ← series_get index r ("y" +:+ pretty i);
  z ← series_get index r ("z" +:+ pretty i);
  Done (if is_sentinel (x, y, z) then markers else markers ++ [(x, y, z)]).

Definition markers_by_name (index : list string) (r : row)
    : outcome (list point) :=
  for_each (marker_by_name index r) (seq 1 (length index / 3)) [].

(** The name of the column at position [k] of a cleaned frame. *)
Definition name_of (k : nat) : string :=
  match k mod 3 with
  | 0 => "x" +:+ pretty (k / 3 + 1)
  | 1 => "y" +:+ pretty (k / 3 + 1)
  | _ => "z" +:+ pretty (k / 3 + 1)
  end.

(** The point a row holds in its [j]-th group of three cells. *)
Definition point_at (r : row) (j : nat) : point :=
  (nth (3 * j) r 0%Q, nth (3 * j + 1) r 0%Q, nth (3 * j + 2) r 0%Q).

(** ** get_latest_csv_file *)

(** [s.endswith(suffix)] *)
Definition endswith (s suffix : string) : bool :=
  (String.length suffix <=? String.length s)
  && String.eqb
       (String.substring (String.length s - String.length suffix)
          (String.length suffix) s)
       suffix.

(** [max(items, key=key)] after its first item: a later item replaces the
    best one only when its key is strictly greater. *)
Fixpoint max_from (key : string -> Q) (best : string) (rest : list string)
    : string :=
  match rest with
  | [] => best
  | item :: rest' =>
      if Qltb (key best) (key item) then max_from key item rest'
      else max_from key best rest'
  end.

Section LatestFile.

(** The file system as the function sees it: [os.listdir] and
    [os.path.getmtime]. *)
Variable listdir : string -> list string.
Variable getmtime : string -> Q.

Definition csv_files (ndi_folder : string) : list string :=
  List.filter (fun f => endswith f ".csv") (listdir ndi_folder).

(** [max(items, key=os.path.getmtime)]; [None] stands for the
    [ValueError] on an empty list. *)
Definition max_by (items : list string) : option string :=
  match items with
  | [] => None
  | first :: rest => Some (max_from getmtime first rest)
  end.

Definition get_latest_csv_file (ndi_folder : string) : option string :=
  match csv_files ndi_folder with
  | [] => None
  | files => max_by (map (fun f => ndi_folder +:+ "/" +:+ f) files)
  end.

End LatestFile.

(** ** Further sample data *)

Local Open Scope Q_scope.

(** The device lists the two markers in the opposite order in row 2. *)
Definition swapped : DataFrame :=
  mkDataFrame 6
    [ [0; 0; 0; 0; 0; 0];
      [1; 1; 1; 100; 0; 0];
      [100; 0; 1; 1; 1; 2];
      [1; 1; 3; 100; 0; 2] ].

Definition swapped_track : list (point * point) :=
  [ ((1, 1, 2), (100, 0, 1)); ((1, 1, 3), (100, 0, 2)) ].

Definition swapped_labelled : DataFrame :=
  mkDataFrame 6
    [ [0; 0; 0; 0; 0; 0];
      [1; 1; 1; 100; 0; 0];
      [1; 1; 2; 100; 0; 1];
      [1; 1; 3; 100; 0; 2] ].

(** Two markers two millimetres apart, then a row with one detection. *)
Definition lone_state : state :=
  mkState
    [ [1; 1; 1; 2; 2; 2];
      [1; 1; 1; 2; 2; 2];
      [1; 1; 1; 0; 0; 0] ]
    (mkPrevPos (Some (1, 1, 1)) (Some (2, 2, 2))).

(** What the resampler writes for [drift] with [hold] as the curve. *)
Definition drift_resampled : DataFrame :=
  Eval vm_compute in
    match interpolate_data NDI_ORIGINAL_FRAME_RATE NDI_DESIRED_FRAME_RATE
            hold hold drift with
    | Done out => out
    | Abort _ => mkDataFrame 0 []
    end.

(** A conversion that knows five texts. *)
Definition sample_numeric (s : string) : option Q :=
  if String.eqb s "1" then Some 1
  else if String.eqb s "2" then Some 2
  else if String.eqb s "3" then Some 3
  else if String.eqb s "4" then Some 4
  else if String.eqb s "-3.697314E28" then Some MISSING
  else None.

(** A raw row: 42 metadata cells, then three cells. *)
Definition raw_row (a b c : option string) : list (option string) :=
  replicate 42 (Some "meta"%string) ++ [a; b; c].

(** A header row and three data rows; the middle column is text. *)
Definition sample_raw : RawFrame :=
  mkRawFrame 45
    [ raw_row (Some "Tx") (Some "State") (Some "Ty");
      raw_row (Some "1") (Some "OK") (Some "2");
      raw_row None (Some "OK") (Some "3");
      raw_row (Some "-3.697314E28") (Some "OK") (Some "4") ]%string.

Local Close Scope Q_scope.

(** ** The actuator link (inspire_actuator_control.py, inspire_config.py) *)

Definition MIN_POSITION : Z := 0.
Definition MAX_POSITION : Z := 2000.

(** The entries of [REG_DICT] the module reads. *)
Definition REG_controlModel : Z := 0x25.
Definition REG_targetLocation : Z := 0x29.
Definition REG_actualLocation : Z := 0x2A.
Definition REG_actualForce : Z := 0x2C.

(** The serial port object: whether it is open, the frames written to it
    so far, and what the successive calls of [read_all] will return. *)
Record Port : Type := mkPort {
  is_open : bool;
  written : list (list Z);
  incoming : list (list Z)
}.

(** Whether [bytearray(frame)] accepts the list: every item is in
    [range(256)]. *)
Definition byte_values (frame : list Z) : bool :=
  forallb (fun b => (0 <=? b)%Z && (b <? 256)%Z) frame.

(** [sum(items)] *)
Definition sum (items : list Z) : Z := fold_left Z.add items 0%Z.

(** [ser.write(bytearray(frame))]; [None] when it raises: no port object
    ([ser] is [None]), an item outside [range(256)], or a closed port.  An
    open port takes every frame. *)
Definition write (ser : option Port) (frame : list Z) : option Port :=
  match ser with
  | None => None
  | Some port =>
      if negb (byte_values frame) then None
      else if negb (is_open port) then None
      else Some (mkPort true (written port ++ [frame]) (incoming port))
  end.

(** [ser.read_all()]: the next block of bytes that arrived, empty when
    nothing did. *)
Definition read_all (port : Port) : list Z * Port :=
  (hd [] (incoming port),
   mkPort (is_open port) (written port) (tl (incoming port))).

(** [_parse_2_byte_response(response_bytes, offset)] *)
Definition _parse_2_byte_response (response_bytes : list Z) (offset : nat)
    : option Z :=
  match response_bytes with
  | [] => None
  | _ =>
      if offset + 2 <=? length response_bytes then
        Some (nth offset response_bytes 0 +
              Z.shiftl (nth (offset + 1) response_bytes 0) 8)%Z
      else None
  end.

(** [get_actual_position(actuator_id)]: the value returned and the global
    [ser] afterwards. *)
Definition get_actual_position (ser : option Port) (actuator_id : Z)
    : option Z * option Port :=
  let bytes_to_read := 2%Z in
  let read_cmd_payload :=
    [actuator_id; 0x31; Z.land REG_actualLocation 0xFF;
     Z.land (Z.shiftr REG_actualLocation 8) 0xFF; bytes_to_read]%Z in
  let frame := [0x55; 0xAA]%Z in
  let frame := frame ++ [Z.of_nat (length read_cmd_payload)] in
  let frame := frame ++ read_cmd_payload in
  let checksum := Z.land (sum (drop 2 frame)) 0xFF in
  let frame := frame ++ [checksum] in
  match write ser frame with
  | None => (None, ser)
  | Some port =>
      let '(response, port) := read_all port in
      match response with
      | [] => (None, Some port)
      | _ =>
          if (8 <? length response)
             && (nth 0 response 0 =? 0x55)%Z && (nth 1 response 0 =? 0xAA)%Z
          then
            if (nth 3 response 0 =? actuator_id)%Z
               && (nth 4 response 0 =? 0x31)%Z
            then (Some (nth 7 response 0 + Z.shiftl (nth 8 response 0) 8)%Z,
                  Some port)
            else (_parse_2_byte_response response 7, Some port)
          else (_parse_2_byte_response response 7, Some port)
      end
  end.

(** [get_actual_force(actuator_id)] *)
Definition get_actual_force (ser : option Port) (actuator_id : Z)
    : option Z * option Port :=
  let bytes_to_read := 2%Z in
  let read_cmd_payload :=
    [actuator_id; 0x31; Z.land REG_actualForce 0xFF;
     Z.land (Z.shiftr REG_actualForce 8) 0xFF; bytes_to_read]%Z in
  let frame := [0x55; 0xAA]%Z in
  let frame := frame ++ [Z.of_nat (length read_cmd_payload)] in
  let frame := frame ++ read_cmd_payload in
  let checksum := Z.land (sum (drop 2 frame)) 0xFF in
  let frame := frame ++ [checksum] in
  match write ser frame with
  | None => (None, ser)
  | Some port =>
      let '(response, port) := read_all port in
      match response with
      | [] => (None, Some port)
      | _ =>
          if (8 <? length response)
             && (nth 0 response 0 =? 0x55)%Z && (nth 1 response 0 =? 0xAA)%Z
          then
            if (nth 3 response 0 =? actuator_id)%Z
               && (nth 4 response 0 =? 0x31)%Z
            then (Some (nth 7 response 0 + Z.shiftl (nth 8 response 0) 8)%Z,
                  Some port)
            else (_parse_2_byte_response response 7, Some port)
          else (_parse_2_byte_response response 7, Some port)
      end
  end.

(** The frame [send_command_and_parse_response] builds before the
    checksum; [None] for a command type it does not know. *)
Definition command_frame (actuator_id command_type register_address : Z)
    (data_bytes : option (list Z)) : option (list Z) :=
  let frame := [0x55; 0xAA]%Z in
  if (command_type =? 0x30)%Z then
    let cmd_data :=
      [0x03; actuator_id; command_type; Z.land register_address 0xFF;
       Z.land (Z.shiftr register_address 8) 0xFF]%Z in
    let frame := frame ++ [(Z.of_nat (length cmd_data) - 1)%Z] in
    Some (frame ++ drop 1 cmd_data)
  else if (command_type =? 0x32)%Z then
    let data_bytes := default [] data_bytes in
    let payload :=
      [actuator_id; command_type; Z.land register_address 0xFF;
       Z.land (Z.shiftr register_address 8) 0xFF]%Z in
    let payload := payload ++ data_bytes in
    let frame := frame ++ [Z.of_nat (length payload)] in
    Some (frame ++ payload)
  else None.

(** [send_command_and_parse_response(actuator_id, command_type,
    register_address, data_bytes)]: the response returned and the global
    [ser] afterwards. *)
Definition send_command_and_parse_response (ser : option Port)
    (actuator_id command_type register_address : Z)
    (data_bytes : option (list Z)) : option (list Z) * option Port :=
  match ser with
  | None => (None, ser)
  | Some port0 =>
      if negb (is_open port0) then (None, ser)
      else
        match command_frame actuator_id command_type register_address
                data_bytes with
        | None => (None, ser)
        | Some frame =>
            let checksum := Z.land (sum (drop 2 frame)) 0xFF in
            let frame := frame ++ [checksum] in
            match write ser frame with
            | None => (None, ser)
            | Some port =>
                let '(response, port) := read_all port in
                match response with
                | [] => (None, Some port)
                | _ => (Some response, Some port)
                end
            end
        end
  end.

(** The module [inspire_LASF] as this file uses it: whether it has a
    function [position] and, if so, what a call does: whether it returns
    ([true]) or raises ([false]), and the port it leaves behind. *)
Record LASF : Type := mkLASF {
  position : option (option Port -> Z -> Z -> bool * option Port)
}.

(** How a call of [set_target_position] ends: it returns a value, or an
    exception leaves the function. *)
Inductive ending : Type :=
  | Returns (value : bool)
  | Raises.

(** [set_target_position(actuator_id, position_value)], given what the name
    [inspire_LASF] is bound to ([None] when the import at the top of the
    file failed, which leaves the name unbound, so that [hasattr] on it
    raises NameError): how the call ends and the global [ser]
    afterwards. *)
Definition set_target_position (inspire_LASF : option LASF)
    (ser : option Port) (actuator_id position_value : Z)
    : ending * option Port :=
  let position_value :=
    Z.max MIN_POSITION (Z.min MAX_POSITION position_value) in
  let pos_low := Z.land position_value 0xFF in
  let pos_high := Z.land (Z.shiftr position_value 8) 0xFF in
  let data_to_write := [pos_low; pos_high] in
  match inspire_LASF with
  | None => (Raises, ser)
  | Some module =>
      match position module with
      | Some position =>
          let '(returned, ser) :=
            position ser actuator_id position_value in
          (if returned then Returns true else Raises, ser)
      | None =>
          let '(_, ser) :=
            send_command_and_parse_response ser actuator_id 0x32
              REG_controlModel (Some [0; 0]%Z) in
          let '(response, ser) :=
            send_command_and_parse_response ser actuator_id 0x32
              REG_targetLocation (Some data_to_write) in
          (Returns (bool_decide (is_Some response)), ser)
      end
  end.

(** The frame lines 109-118 build for a write command, written out:
    header, length, actuator, command, register (low byte first), data,
    checksum. *)
Definition write_frame (actuator_id register_address : Z) (data : list Z)
    : list Z :=
  [0x55; 0xAA; Z.of_nat (4 + length data); actuator_id; 0x32;
   Z.land register_address 0xFF;
   Z.land (Z.shiftr register_address 8) 0xFF]%Z
  ++ data
  ++ [Z.land (Z.of_nat (4 + length data) + actuator_id + 0x32
              + Z.land register_address 0xFF
              + Z.land (Z.shiftr register_address 8) 0xFF + sum data) 0xFF].

(** The frame lines 86-91 and 117-118 build for a read command. *)
Definition read_frame (actuator_id register_address : Z) : list Z :=
  [0x55; 0xAA; 4; actuator_id; 0x30;
   Z.land register_address 0xFF;
   Z.land (Z.shiftr register_address 8) 0xFF;
   Z.land (4 + actuator_id + 0x30 + Z.land register_address 0xFF
           + Z.land (Z.shiftr register_address 8) 0xFF) 0xFF]%Z.

(** What a caller gets for a block read from the port. *)
Definition answer (response : list Z) : option (list Z) :=
  match response with
  | [] => None
  | _ => Some response
  end.

(** Sample ports: a port that answers a position request with a frame
    whose header is wrong, a closed port, and a silent one. *)
Definition answering : Port :=
  mkPort true [] [[0; 0; 0; 0; 0; 0; 0; 0xF4; 0x01]%Z; [0x55; 0xAA]%Z].

Definition closed : Port := mkPort false [] [].

Definition silent : Port := mkPort true [] [].


(** ** The actuator log (inspire_actuator_control.py) *)

(** A field of a log row: text, or a number. *)
Inductive field : Type :=
  | Text (s : string)
  | Number (v : Z).

(** [value if value is not None else 'N/A'] *)
Definition or_na (value : option Z) : field :=
  match value with
  | Some v => Number v
  | None => Text "N/A"
  end.

Section Logging.

(** [config.ACTUATOR_IDS] *)
Variable ACTUATOR_IDS : list Z.

(** The header row [start_logging] hands to the CSV writer. *)
Definition header : list string :=
  fold_left
    (fun header act_id =>
       header ++ ["actuator_" +:+ pretty act_id +:+ "_pos";
                  "actuator_" +:+ pretty act_id +:+ "_force"])
    ACTUATOR_IDS ["timestamp"].

(** One pass of the body of the loop of [log_data_loop]: the row handed to
    the CSV writer and the global [ser] afterwards.  The pass is taken as
    a whole: what the main thread does to the port in the meantime is not
    part of it. *)
Definition log_row (ser : option Port) (current_time : string)
    : list field * option Port :=
  fold_left
    (fun '(log_row, ser) act_id =>
       let '(pos, ser) := get_actual_position ser act_id in
       let '(force, ser) := get_actual_force ser act_id in
       (log_row ++ [or_na pos; or_na force], ser))
    ACTUATOR_IDS ([Text current_time], ser).

End Logging.

(** The nine-byte request of [get_actual_position] and [get_actual_force]
    for a register below 256. *)
Definition request_frame (actuator_id register : Z) : list Z :=
  [0x55; 0xAA; 5; actuator_id; 0x31; register; 0; 2;
   Z.land (5 + actuator_id + 0x31 + register + 0 + 2) 0xFF]%Z.

(** A port with four blocks waiting, the third too short to decode. *)
Definition busy : Port :=
  mkPort true []
    [[0; 0; 0; 0; 0; 0; 0; 0xF4; 0x01]%Z;
     [0x55; 0xAA; 5; 3; 0x31; 0x2C; 0; 0x10; 0x00; 0x9A]%Z;
     [0x55; 0xAA]%Z;
     [1; 2; 3; 4; 5; 6; 7; 8; 9]%Z].

(** * Lemmas *)

Lemma Qltb_lt (a b : Q) : Qltb a b = true <-> (a < b)%Q.
Proof.
  unfold Qltb. rewrite negb_true_iff. split.
  - intros H. apply Qnot_le_lt. intros Hle.
    apply Qle_bool_iff in Hle. congruence.
  - intros H. destruct (Qle_bool b a) eqn:E; [|reflexivity].
    apply Qle_bool_iff in E. exfalso. exact (Qlt_not_le _ _ H E).
Qed.

Lemma within_spec (m : Q) (p q : point) :
  within m p q = true <-> (0 < m /\ dist_sq p q < m * m)%Q.
Proof.
  unfold within. rewrite andb_true_iff, !Qltb_lt. reflexivity.
Qed.

Lemma dist_sq_nonneg (p q : point) : (0 <= Q2R (dist_sq p q))%R.
Proof.
  destruct p as [[px py] pz], q as [[qx qy] qz]. unfold dist_sq.
  rewrite !Q2R_plus, !Q2R_mult.
  pose proof (Rle_0_sqr (Q2R (px - qx))) as H1.
  pose proof (Rle_0_sqr (Q2R (py - qy))) as H2.
  pose proof (Rle_0_sqr (Q2R (pz - qz))) as H3.
  unfold Rsqr in *. lra.
Qed.

(** The boolean gate is the strict comparison of the Euclidean distance
    with the bound. *)
Lemma within_norm (m : Q) (p q : point) :
  within m p q = true <-> (norm p q < Q2R m)%R.
Proof.
  rewrite within_spec. unfold norm.
  pose proof (dist_sq_nonneg p q) as Hd.
  assert (H0 : Q2R 0 = 0%R) by (unfold Q2R; simpl; lra).
  split.
  - intros [Hm Hlt]. apply Qlt_Rlt in Hm, Hlt.
    rewrite Q2R_mult in Hlt. rewrite H0 in Hm.
    rewrite <- (sqrt_square (Q2R m)) by lra.
    apply sqrt_lt_1_alt. lra.
  - intros H. pose proof (sqrt_pos (Q2R (dist_sq p q))) as Hs.
    assert (Hm : (0 < Q2R m)%R) by lra.
    split; apply Rlt_Qlt.
    + now rewrite H0.
    + rewrite Q2R_mult.
      rewrite <- (sqrt_sqrt (Q2R (dist_sq p q))) by exact Hd.
      apply Rmult_le_0_lt_compat; lra.
Qed.


(** The loop rule: a property indexed by the next index to run. *)
Lemma for_each_seq_inv {S : Type} (body : nat -> S -> outcome S)
    (P : nat -> S -> Prop) (n a : nat) (st st' : S) :
  P a st ->
  (forall i s s', a <= i < a + n -> P i s -> body i s = Done s' ->
                  P (Datatypes.S i) s') ->
  for_each body (seq a n) st = Done st' ->
  P (a + n) st'.
Proof.
  revert a st. induction n as [|n IH]; intros a st H0 Hstep Hrun; simpl in Hrun.
  - inversion Hrun; subst. now rewrite Nat.add_0_r.
  - destruct (body a st) as [s1|e] eqn:Hb; [|discriminate].
    replace (a + Datatypes.S n) with (Datatypes.S a + n) by lia.
    apply (IH (Datatypes.S a) s1); [| |exact Hrun].
    + apply (Hstep a st s1); [lia|exact H0|exact Hb].
    + intros i s s' Hi. apply Hstep. lia.
Qed.

(** *** The two loops of the candidate collection *)

Lemma match_marker_app (m : Q) (pp : PrevPos) (acc : list candidate)
    (p : point) :
  match_marker m pp acc p = acc ++ match_marker m pp [] p.
Proof.
  unfold match_marker, items; simpl.
  destruct (prev1 pp) as [q1|], (prev2 pp) as [q2|]; simpl;
    repeat match goal with |- context [within ?a ?b ?c] =>
             destruct (within a b c) end;
    simpl; rewrite <- ?app_assoc, ?app_nil_r; reflexivity.
Qed.

Lemma collect_from (m : Q) (pp : PrevPos) (markers : list point)
    (acc : list candidate) :
  fold_left (match_marker m pp) markers acc =
  acc ++ fold_left (match_marker m pp) markers [].
Proof.
  revert acc. induction markers as [|p ps IH]; intros acc; simpl.
  - now rewrite app_nil_r.
  - rewrite IH, (IH (match_marker m pp [] p)), match_marker_app.
    now rewrite app_assoc.
Qed.

Lemma collect_candidate_pairs (m : Q) (pp : PrevPos) (markers : list point) :
  collect m pp markers = candidate_pairs m pp markers.
Proof.
  unfold collect. induction markers as [|p ps IH]; simpl; [reflexivity|].
  rewrite collect_from, IH. f_equal.
  unfold match_marker, items; simpl.
  destruct (prev1 pp) as [q1|], (prev2 pp) as [q2|]; simpl;
    repeat match goal with |- context [within ?a ?b ?c] =>
             destruct (within a b c) end;
    reflexivity.
Qed.

Lemma candidate_pairs_In (m : Q) (pp : PrevPos) (points : list point)
    (p : point) (id : marker_id) :
  In (p, id) (candidate_pairs m pp points) ->
  In p points /\ exists q, prev_of pp id = Some q /\ within m p q = true.
Proof.
  unfold candidate_pairs. rewrite in_flat_map.
  intros (p' & Hp' & Hin). apply in_flat_map in Hin.
  destruct Hin as (id' & _ & Hin).
  destruct (prev_of pp id') as [q|] eqn:Hq; [|contradiction].
  destruct (within m p' q) eqn:Hw; [|contradiction].
  destruct Hin as [Heq|[]]. inversion Heq; subst. eauto.
Qed.

(** *** Cells, rows and the table *)

Lemma at_set_lookup (lab : list row) (idx col : nat) (v : Q) (r : row) :
  lab !! idx = Some r -> at_set lab idx col v = <[idx := <[col := v]> r]> lab.
Proof. intros H. unfold at_set. now rewrite H. Qed.

Lemma at_set_insert (lab : list row) (idx col : nat) (v : Q) (r : row) :
  idx < length lab ->
  at_set (<[idx := r]> lab) idx col v = <[idx := <[col := v]> r]> lab.
Proof.
  intros Hlt. unfold at_set.
  rewrite list_lookup_insert_eq by exact Hlt.
  now rewrite list_insert_insert_eq.
Qed.

Lemma bind_marker_lookup (lab : list row) (idx : nat) (id : marker_id)
    (p : point) (r : row) :
  lab !! idx = Some r -> bind_marker lab idx id p = <[idx := write3 r id p]> lab.
Proof.
  intros H. assert (Hlt : idx < length lab) by (eapply lookup_lt_Some; eauto).
  destruct p as [[x y] z]. unfold bind_marker, write3.
  destruct id; simpl;
    rewrite (at_set_lookup lab idx _ x r H);
    now rewrite !at_set_insert by exact Hlt.
Qed.

Lemma bind_marker_None (lab : list row) (idx : nat) (id : marker_id)
    (p : point) :
  lab !! idx = None -> bind_marker lab idx id p = lab.
Proof.
  intros H. destruct p as [[x y] z]. unfold bind_marker, at_set.
  destruct id; now rewrite !H.
Qed.

Lemma write3_length (r : row) (id : marker_id) (p : point) :
  length (write3 r id p) = length r.
Proof. destruct p as [[x y] z]. unfold write3. now rewrite !length_insert. Qed.

Ltac six_cells r H :=
  destruct r as [|? [|? [|? [|? [|? [|? ?]]]]]];
  simpl in H; try lia.

Lemma row_pos_write3_same (r : row) (id : marker_id) (p : point) :
  6 <= length r -> row_pos (write3 r id p) id = Some p.
Proof.
  intros H. destruct p as [[x y] z]. six_cells r H. now destruct id.
Qed.

Lemma row_pos_write3_other (r : row) (id : marker_id) (p : point) :
  row_pos (write3 r (other id) p) id = row_pos r id.
Proof.
  destruct p as [[x y] z].
  destruct r as [|? [|? [|? [|? [|? [|? ?]]]]]]; now destruct id.
Qed.

Lemma row_pos_take6 (r : row) (id : marker_id) :
  row_pos (take 6 r) id = row_pos r id.
Proof.
  destruct r as [|? [|? [|? [|? [|? [|? ?]]]]]]; now destruct id.
Qed.

Lemma drop6_write3 (r : row) (id : marker_id) (p : point) :
  drop 6 (write3 r id p) = drop 6 r.
Proof.
  destruct p as [[x y] z].
  destruct r as [|? [|? [|? [|? [|? [|? ?]]]]]]; now destruct id.
Qed.

Lemma row_pos_is_Some (r : row) (id : marker_id) :
  6 <= length r -> is_Some (row_pos r id).
Proof. intros H. six_cells r H. destruct id; eexists; reflexivity. Qed.

Lemma row_pos_values3 (r : row) (id : marker_id) (p : point) :
  row_pos r id = Some p ->
  values3 r (base_col id) (base_col id + 1) (base_col id + 2) = Done p.
Proof.
  unfold row_pos. destruct (values3 _ _ _ _); [|discriminate]. congruence.
Qed.

Lemma other_other (id : marker_id) : other (other id) = id.
Proof. now destruct id. Qed.

(** *** One iteration *)

(** What the initialization iteration does. *)
Lemma iteration_init (m : Q) (st : state) (r : row) :
  labelled st !! 1 = Some r ->
  iteration m 1 st =
  match group_markers r with
  | [m0; m1] => Done (mkState (labelled st) (mkPrevPos (Some m0) (Some m1)))
  | ms => Abort (InitialMarkerCount (length ms))
  end.
Proof.
  intros H. unfold iteration, iloc. rewrite H. simpl.
  destruct (group_markers r) as [|? [|? [|? ?]]]; reflexivity.
Qed.

(** What an update iteration does when it has its two candidates. *)
Lemma iteration_update (m : Q) (idx : nat) (st : state) (r : row)
    (c1 c2 : candidate) :
  idx <> 1 ->
  labelled st !! idx = Some r ->
  6 <= length r ->
  collect m (prev_pos st) (group_markers r) = [c1; c2] ->
  iteration m idx st =
  Done (mkState (<[idx := updated_row r c1 c2]> (labelled st))
          (mkPrevPos (row_pos (updated_row r c1 c2) marker1)
                     (row_pos (updated_row r c1 c2) marker2))).
Proof.
  intros Hidx Hr Hlen Hc.
  assert (Hlt : idx < length (labelled st)) by (eapply lookup_lt_Some; eauto).
  unfold iteration, iloc. rewrite Hr. simpl.
  apply Nat.eqb_neq in Hidx. rewrite Hidx, Hc.
  destruct c1 as [p1 id1], c2 as [p2 id2].
  rewrite (bind_marker_lookup _ idx id1 p1 r Hr).
  erewrite bind_marker_lookup by (apply list_lookup_insert_eq; exact Hlt).
  rewrite list_insert_insert_eq.
  rewrite list_lookup_insert_eq by exact Hlt. simpl.
  assert (H6 : 6 <= length (updated_row r (p1, id1) (p2, id2))).
  { unfold updated_row. now rewrite !write3_length. }
  destruct (row_pos_is_Some _ marker1 H6) as [q1 Hq1].
  destruct (row_pos_is_Some _ marker2 H6) as [q2 Hq2].
  rewrite Hq1, Hq2.
  apply row_pos_values3 in Hq1, Hq2.
  change (base_col marker1) with x1 in Hq1.
  change (base_col marker2) with x2 in Hq2.
  change (x1 + 1) with y1 in Hq1. change (x1 + 2) with z1 in Hq1.
  change (x2 + 1) with y2 in Hq2. change (x2 + 2) with z2 in Hq2.
  unfold updated_row in *. simpl in Hq1, Hq2 |- *. now rewrite Hq1, Hq2.
Qed.

(** Any other length of the candidate list ends the run. *)
Lemma iteration_lost (m : Q) (idx : nat) (st : state) (r : row) :
  idx <> 1 ->
  labelled st !! idx = Some r ->
  length (collect m (prev_pos st) (group_markers r)) <> 2 ->
  iteration m idx st = Abort (MarkerLostTrack idx).
Proof.
  intros Hidx Hr Hlen. unfold iteration, iloc. rewrite Hr. simpl.
  apply Nat.eqb_neq in Hidx. rewrite Hidx.
  destruct (collect _ _ _) as [|[? ?] [|[? ?] [|? ?]]]; simpl in Hlen;
    try reflexivity.
  congruence.
Qed.

(** An iteration that returns normally for [idx <> 1] had exactly two
    candidates and rewrote row [idx] only. *)
Lemma iteration_update_inv (m : Q) (idx : nat) (st st' : state) :
  idx <> 1 ->
  iteration m idx st = Done st' ->
  exists r c1 c2,
    labelled st !! idx = Some r /\
    collect m (prev_pos st) (group_markers r) = [c1; c2] /\
    labelled st' = <[idx := updated_row r c1 c2]> (labelled st) /\
    prev_pos st' = mkPrevPos (row_pos (updated_row r c1 c2) marker1)
                             (row_pos (updated_row r c1 c2) marker2).
Proof.
  intros Hidx Hrun. unfold iteration, iloc in Hrun.
  destruct (labelled st !! idx) as [r|] eqn:Hr; [|discriminate].
  simpl in Hrun. apply Nat.eqb_neq in Hidx. rewrite Hidx in Hrun.
  assert (Hlt : idx < length (labelled st)) by (eapply lookup_lt_Some; eauto).
  destruct (collect m (prev_pos st) (group_markers r))
    as [|[p1 id1] [|[p2 id2] [|? ?]]] eqn:Hc; try discriminate.
  exists r, (p1, id1), (p2, id2).
  rewrite (bind_marker_lookup _ idx id1 p1 r Hr) in Hrun.
  erewrite bind_marker_lookup in Hrun
    by (apply list_lookup_insert_eq; exact Hlt).
  rewrite list_insert_insert_eq in Hrun.
  rewrite list_lookup_insert_eq in Hrun by exact Hlt.
  simpl in Hrun. fold (updated_row r (p1, id1) (p2, id2)) in Hrun.
  destruct (values3 _ x1 y1 z1) as [q1|] eqn:E1; [|discriminate].
  simpl in Hrun.
  destruct (values3 _ x2 y2 z2) as [q2|] eqn:E2; [|discriminate].
  simpl in Hrun. inversion Hrun; subst; simpl.
  repeat split; try reflexivity; try exact Hc.
  unfold row_pos, updated_row in *. cbn [fst snd] in *.
  change (base_col marker1) with x1. change (base_col marker2) with x2.
  change (x1 + 1) with y1. change (x1 + 2) with z1.
  change (x2 + 1) with y2. change (x2 + 2) with z2.
  now rewrite E1, E2.
Qed.

(** Rows other than [idx] are never touched, and the initialization
    iteration touches none. *)
Lemma iteration_frame (m : Q) (idx : nat) (st st' : state) :
  iteration m idx st = Done st' ->
  length (labelled st') = length (labelled st) /\
  forall j, j <> idx \/ idx = 1 -> labelled st' !! j = labelled st !! j.
Proof.
  intros Hrun. destruct (Nat.eq_dec idx 1) as [->|Hne].
  - unfold iteration, iloc in Hrun.
    destruct (labelled st !! 1) as [r|]; [|discriminate]. simpl in Hrun.
    destruct (group_markers r) as [|? [|? [|? ?]]]; try discriminate.
    inversion Hrun; subst; simpl. auto.
  - destruct (iteration_update_inv m idx st st' Hne Hrun)
      as (r & c1 & c2 & _ & _ & Hlab & _).
    rewrite Hlab, length_insert. split; [reflexivity|].
    intros j [Hj|Hj]; [|contradiction].
    apply list_lookup_insert_ne. congruence.
Qed.

(** *** The whole run *)

Lemma label_markers_unfold (m : Q) (df : DataFrame) :
  6 <= columns df ->
  label_markers m df =
  match for_each (iteration m) (seq 1 (length (data df) - 1)) (start df) with
  | Done st => Done (first_six (mkDataFrame (columns df) (labelled st)))
  | Abort e => Abort e
  end.
Proof.
  intros H. unfold label_markers.
  destruct (columns df <? 6) eqn:E; [apply Nat.ltb_lt in E; lia|].
  reflexivity.
Qed.

(** The first two rows and the length of the table survive the loop. *)
Lemma loop_frame (m : Q) (df : DataFrame) (n : nat) (st : state) :
  for_each (iteration m) (seq 1 n) (start df) = Done st ->
  length (labelled st) = length (data df) /\
  forall j, j < 2 \/ 1 + n <= j -> labelled st !! j = data df !! j.
Proof.
  intros Hrun.
  apply (for_each_seq_inv (iteration m)
           (fun k s => length (labelled s) = length (data df) /\
                       forall j, j < 2 \/ k <= j ->
                                 labelled s !! j = data df !! j)
           n 1 (start df) st); [now split| |exact Hrun].
  intros i s s' Hi [Hlen Hrows] Hbody.
  destruct (iteration_frame m i s s' Hbody) as [Hlen' Hrows'].
  split; [congruence|].
  intros j Hj. rewrite Hrows' by lia. apply Hrows. lia.
Qed.

Lemma resolved_insert_ne (df : DataFrame) (lab : list row) (i t : nat)
    (r : row) (id : marker_id) :
  t <> i \/ t = 1 ->
  resolved df (<[i := r]> lab) t id = resolved df lab t id.
Proof.
  intros H. unfold resolved. destruct (t =? 1) eqn:E; [reflexivity|].
  apply Nat.eqb_neq in E.
  rewrite list_lookup_insert_ne by (destruct H; congruence). reflexivity.
Qed.

Lemma resolved_insert_eq (df : DataFrame) (lab : list row) (i : nat)
    (r : row) (id : marker_id) :
  i <> 1 -> i < length lab ->
  resolved df (<[i := r]> lab) i id = row_pos r id.
Proof.
  intros H Hlt. unfold resolved. apply Nat.eqb_neq in H. rewrite H.
  now rewrite list_lookup_insert_eq by exact Hlt.
Qed.

Lemma resolved_take6 (df : DataFrame) (lab : list row) (t : nat)
    (id : marker_id) :
  resolved df (map (take 6) lab) t id = resolved df lab t id.
Proof.
  unfold resolved. destruct (t =? 1); [reflexivity|].
  change (map (take 6) lab) with (take 6 <$> lab).
  rewrite list_lookup_fmap.
  destruct (lab !! t) as [r|]; simpl; [apply row_pos_take6 | reflexivity].
Qed.

Lemma gated_step_insert (m : Q) (df : DataFrame) (lab : list row)
    (i t : nat) (r : row) :
  2 <= t < i ->
  gated_step m df lab t -> gated_step m df (<[i := r]> lab) t.
Proof.
  intros Ht (id1 & id2 & p1 & q1 & p2 & q2 & H).
  exists id1, id2, p1, q1, p2, q2.
  rewrite !resolved_insert_ne by lia. exact H.
Qed.

Lemma tracked_start (m : Q) (df : DataFrame) :
  rectangular df -> 6 <= columns df -> tracked m df 1 (start df).
Proof.
  intros Hrect Hcols. unfold tracked; simpl. repeat split; try lia.
  eapply Forall_impl; [exact Hrect|]. simpl. intros r Hr. lia.
Qed.

Lemma tracked_step (m : Q) (df : DataFrame) (i : nat) (s s' : state) :
  1 <= i ->
  tracked m df i s -> iteration m i s = Done s' ->
  tracked m df (S i) s'.
Proof.
  intros Hi (Hlen & Hrows & Hwide & Hprev & Hsteps & Hdense) Hbody.
  destruct (Nat.eq_dec i 1) as [->|Hne].
  - (* initialization *)
    destruct (iteration_frame m 1 s s' Hbody) as [Hlen' Hrows'].
    assert (Hlab : labelled s' = labelled s).
    { apply list_eq. intros j. apply Hrows'. now right. }
    unfold iteration, iloc in Hbody.
    destruct (labelled s !! 1) as [r|] eqn:Hr; [|discriminate].
    simpl in Hbody.
    destruct (group_markers r) as [|m0 [|m1 [|? ?]]] eqn:Hm; try discriminate.
    inversion Hbody; subst s'; simpl in *.
    repeat split; try assumption.
    + intros j Hj. apply Hrows. lia.
    + intros _ id. unfold resolved. simpl.
      rewrite <- (Hrows 1) by lia. rewrite Hr. simpl. rewrite Hm.
      now destruct id.
    + intros t Ht. lia.
    + intros t id p Ht. lia.
  - (* update *)
    destruct (iteration_update_inv m i s s' Hne Hbody)
      as (r & [p1 id1] & [p2 id2] & Hr & Hc & Hlab & Hpp).
    assert (Hlt : i < length (labelled s)) by (eapply lookup_lt_Some; eauto).
    assert (Hr6 : 6 <= length r).
    { rewrite Forall_lookup in Hwide. exact (Hwide i r Hr). }
    set (r' := updated_row r (p1, id1) (p2, id2)) in *.
    assert (H1 : row_pos r' id1 = Some p1).
    { unfold r', updated_row; simpl.
      rewrite row_pos_write3_other. now apply row_pos_write3_same. }
    assert (H2 : row_pos r' (other id1) = Some p2).
    { unfold r', updated_row; simpl.
      apply row_pos_write3_same. now rewrite write3_length. }
    rewrite collect_candidate_pairs in Hc.
    assert (In1 : In (p1, id1)
                    (candidate_pairs m (prev_pos s) (group_markers r)))
      by (rewrite Hc; now left).
    assert (In2 : In (p2, id2)
                    (candidate_pairs m (prev_pos s) (group_markers r)))
      by (rewrite Hc; right; now left).
    apply candidate_pairs_In in In1, In2.
    destruct In1 as (Hm1 & q1 & Hq1 & Hw1).
    destruct In2 as (Hm2 & q2 & Hq2 & Hw2).
    unfold tracked. rewrite Hlab, Hpp, length_insert.
    repeat split.
    + exact Hlen.
    + intros j Hj. rewrite list_lookup_insert_ne by lia. apply Hrows. lia.
    + apply Forall_insert; [exact Hwide|].
      unfold r', updated_row. now rewrite !write3_length.
    + intros _ id. replace (S i - 1) with i by lia.
      rewrite resolved_insert_eq by assumption. now destruct id.
    + intros t Ht. destruct (Nat.eq_dec t i) as [->|Hti].
      * exists id1, id2, p1, q1, p2, q2.
        rewrite !resolved_insert_eq by assumption.
        rewrite !resolved_insert_ne by lia.
        rewrite <- !Hprev by lia. auto 10.
      * apply gated_step_insert; [lia|]. apply Hsteps. lia.
    + intros t id p Ht. destruct (Nat.eq_dec t i) as [->|Hti].
      * rewrite resolved_insert_eq by assumption. intros Hp.
        assert (Hin : In p (group_markers r)).
        { destruct id, id1; simpl in H1, H2; congruence. }
        apply list_elem_of_In in Hin. unfold group_markers in Hin.
        apply list_elem_of_filter in Hin. tauto.
      * rewrite resolved_insert_ne by lia. apply Hdense. lia.
Qed.

Lemma tracked_run (m : Q) (df : DataFrame) (n : nat) (st : state) :
  rectangular df -> 6 <= columns df ->
  for_each (iteration m) (seq 1 n) (start df) = Done st ->
  tracked m df (1 + n) st.
Proof.
  intros Hrect Hcols Hrun.
  apply (for_each_seq_inv (iteration m) (tracked m df) n 1 (start df) st);
    [now apply tracked_start| |exact Hrun].
  intros i s s' Hi. apply tracked_step. lia.
Qed.

(** X1.  A frame written by a run that returns normally is six columns
    wide, and from row 2 on every triple it holds is a detected point, not
    the sentinel. *)
Lemma labelled_shape_and_density (m : Q) (df out : DataFrame) :
  rectangular df ->
  label_markers m df = Done out ->
  columns out = 6 /\
  Forall (fun r : row => length r = 6) (data out) /\
  forall t id p,
    2 <= t < length (data out) ->
    resolved df (data out) t id = Some p -> is_sentinel p = false.
Proof.
  intros Hrect Hrun. unfold label_markers in Hrun.
  destruct (columns df <? 6) eqn:Hc; [discriminate|].
  apply Nat.ltb_ge in Hc.
  destruct (for_each _ _ _) as [st|] eqn:Hloop; [|discriminate].
  simpl in Hrun. inversion Hrun; subst out; clear Hrun.
  unfold first_six. cbn [columns data].
  destruct (tracked_run m df _ st Hrect Hc Hloop)
    as (Hlen & _ & Hwide & _ & _ & Hdense).
  split; [now apply Nat.min_l|]. split.
  - apply Forall_forall. intros r Hr. apply list_elem_of_In in Hr.
    apply in_map_iff in Hr. destruct Hr as (r0 & <- & Hr0).
    apply list_elem_of_In in Hr0.
    rewrite Forall_forall in Hwide. specialize (Hwide r0 Hr0).
    rewrite length_take. lia.
  - intros t id p Ht. rewrite length_map in Ht.
    rewrite resolved_take6. apply Hdense. lia.
Qed.

(** * The identity tracker *)

(** C1, as amended.  In a run that returns normally, every row [t >= 2] was
    bound through two gated candidates: the identity of the first candidate
    lies strictly within [max_position_change] of its own position at row
    [t - 1], and the other identity lies strictly within
    [max_position_change] of the row [t - 1] position of the identity the
    second candidate records (which need not be its own). *)
Theorem gated_continuity (m : Q) (df out : DataFrame) (t : nat) :
  rectangular df ->
  label_markers m df = Done out ->
  2 <= t < length (data out) ->
  gated_step m df (data out) t.
Proof.
  intros Hrect Hrun Ht. unfold label_markers in Hrun.
  destruct (columns df <? 6) eqn:Hc; [discriminate|].
  apply Nat.ltb_ge in Hc.
  destruct (for_each _ _ _) as [st|] eqn:Hloop; [|discriminate].
  simpl in Hrun. inversion Hrun; subst out; clear Hrun.
  simpl in Ht |- *. rewrite length_map in Ht.
  destruct (tracked_run m df _ st Hrect Hc Hloop)
    as (Hlen & _ & _ & _ & Hsteps & _).
  destruct (Hsteps t ltac:(lia)) as (id1 & id2 & p1 & q1 & p2 & q2 & H).
  exists id1, id2, p1, q1, p2, q2.
  rewrite !resolved_take6. exact H.
Qed.

Lemma gated_continuity_witness :
  gated_step NDI_MAX_POSITION_CHANGE crowded (data (first_six crowded)) 2.
Proof.
  apply (gated_continuity NDI_MAX_POSITION_CHANGE crowded
           (first_six crowded) 2).
  - repeat constructor.
  - vm_compute. reflexivity.
  - simpl. lia.
Defined.

(** C1, as stated, fails: in [crowded] both points of row 2 pass the gate of
    identity 1 only; the run returns normally and identity 2 jumps from
    (100,0,0) to (1,1,3). *)
Lemma identity_continuity_fails :
  exists out,
    label_markers NDI_MAX_POSITION_CHANGE crowded = Done out /\
    ~ continuous NDI_MAX_POSITION_CHANGE out.
Proof.
  exists (first_six crowded). split; [vm_compute; reflexivity|].
  intros H.
  specialize (H 2 marker2 _ _ _ _ ltac:(lia) eq_refl eq_refl eq_refl eq_refl).
  vm_compute in H. discriminate.
Qed.

(** C2.  Initialization reads the second row, not the first: a frame whose
    first row has no detection is labelled without complaint, and a frame
    whose first row has exactly two detections is turned down because of its
    second row. *)
Theorem initialization_reads_row_one :
  group_markers [0; 0; 0; 0; 0; 0]%Q = [] /\
  label_markers NDI_MAX_POSITION_CHANGE blank_first = Done blank_first /\
  length (group_markers [1; 1; 1; 2; 2; 2]%Q) = 2 /\
  label_markers NDI_MAX_POSITION_CHANGE thin_second
    = Abort (InitialMarkerCount 1).
Proof. repeat split; vm_compute; reflexivity. Qed.

(** C3.  An update with the candidate list [(p1, id1); (p2, id2)] writes
    [p1] to [id1] and [p2] to the other identity, whatever [id2] is, leaves
    the rest of the row and all other rows alone, and stores both points as
    the new previous positions. *)
Theorem assignment_policy (m : Q) (idx : nat) (st : state) (r : row)
    (p1 p2 : point) (id1 id2 : marker_id) :
  idx <> 1 ->
  labelled st !! idx = Some r ->
  6 <= length r ->
  collect m (prev_pos st) (group_markers r) = [(p1, id1); (p2, id2)] ->
  exists st' r',
    iteration m idx st = Done st' /\
    labelled st' = <[idx := r']> (labelled st) /\
    row_pos r' id1 = Some p1 /\
    row_pos r' (other id1) = Some p2 /\
    drop 6 r' = drop 6 r /\
    prev_of (prev_pos st') id1 = Some p1 /\
    prev_of (prev_pos st') (other id1) = Some p2.
Proof.
  intros Hidx Hr Hlen Hc.
  set (r' := updated_row r (p1, id1) (p2, id2)).
  assert (H1 : row_pos r' id1 = Some p1).
  { unfold r', updated_row; simpl.
    rewrite row_pos_write3_other. now apply row_pos_write3_same. }
  assert (H2 : row_pos r' (other id1) = Some p2).
  { unfold r', updated_row; simpl.
    apply row_pos_write3_same. now rewrite write3_length. }
  eexists _, r'.
  split; [apply (iteration_update m idx st r _ _ Hidx Hr Hlen Hc)|].
  simpl. fold r'. repeat split; try assumption.
  - unfold r', updated_row. now rewrite !drop6_write3.
  - destruct id1; assumption.
  - destruct id1; assumption.
Qed.

Lemma assignment_policy_witness :
  exists st' r',
    iteration NDI_MAX_POSITION_CHANGE 2 crowded_after_init = Done st' /\
    labelled st' = <[2 := r']> (labelled crowded_after_init) /\
    row_pos r' marker1 = Some (1, 1, 2)%Q /\
    row_pos r' (other marker1) = Some (1, 1, 3)%Q /\
    drop 6 r' = drop 6 [1; 1; 2; 1; 1; 3]%Q /\
    prev_of (prev_pos st') marker1 = Some (1, 1, 2)%Q /\
    prev_of (prev_pos st') (other marker1) = Some (1, 1, 3)%Q.
Proof.
  apply (assignment_policy NDI_MAX_POSITION_CHANGE 2 crowded_after_init
           [1; 1; 2; 1; 1; 3]%Q (1, 1, 2)%Q (1, 1, 3)%Q marker1 marker1).
  - lia.
  - reflexivity.
  - simpl. lia.
  - vm_compute. reflexivity.
Defined.




(** C5.  The labelled frame of a run that returns normally can hold a
    sentinel triple: rows 0 and 1 of [three_slots] start with an empty
    slot, initialization binds identity 1 to (1,1,1), and both rows reach
    the output with (0,0,0) in the columns of identity 1. *)
Theorem sentinel_reaches_output :
  exists out r0 r1,
    label_markers NDI_MAX_POSITION_CHANGE three_slots = Done out /\
    data out !! 0 = Some r0 /\ data out !! 1 = Some r1 /\
    row_pos r0 marker1 = Some (0, 0, 0)%Q /\
    row_pos r1 marker1 = Some (0, 0, 0)%Q /\
    is_sentinel (0, 0, 0)%Q = true /\
    resolved three_slots (data out) 1 marker1 = Some (1, 1, 1)%Q.
Proof.
  eexists _, _, _. repeat split; vm_compute; reflexivity.
Qed.

(** C8.  With enough columns and fewer than two rows the loop body never
    runs, so no row is checked and nothing fails: the run returns a frame
    of exactly six columns whose rows are the rows of the input, each cut
    to its first six cells, whatever the rows hold. *)
Theorem short_input_passthrough (m : Q) (df : DataFrame) :
  6 <= columns df ->
  length (data df) < 2 ->
  for_each (iteration m) (seq 1 (length (data df) - 1)) (start df)
    = Done (start df) /\
  label_markers m df = Done (mkDataFrame 6 (map (take 6) (data df))) /\
  forall out,
    label_markers m df = Done out ->
    columns out = 6 /\
    length (data out) = length (data df) /\
    forall i r, data df !! i = Some r -> data out !! i = Some (take 6 r).
Proof.
  intros Hcols Hrows.
  assert (Hrun : label_markers m df
                 = Done (mkDataFrame 6 (map (take 6) (data df)))).
  { rewrite label_markers_unfold by exact Hcols.
    replace (length (data df) - 1) with 0 by lia. simpl.
    unfold first_six. cbn [columns data]. now rewrite Nat.min_l. }
  split; [|split; [exact Hrun|]].
  - replace (length (data df) - 1) with 0 by lia. reflexivity.
  - intros out Hout. rewrite Hrun in Hout. injection Hout as <-.
    cbn [columns data]. split; [reflexivity|].
    split; [apply length_map|].
    intros i r Hr.
    change (map (take 6) (data df)) with (take 6 <$> data df).
    now rewrite list_lookup_fmap, Hr.
Qed.

Lemma short_input_passthrough_witness :
  6 <= columns single_row /\
  length (data single_row) < 2 /\
  for_each (iteration NDI_MAX_POSITION_CHANGE)
    (seq 1 (length (data single_row) - 1)) (start single_row)
    = Done (start single_row) /\
  label_markers NDI_MAX_POSITION_CHANGE single_row
    = Done (mkDataFrame 6 [ [0; 0; 0; 4; 5; 6]%Q ]).
Proof.
  assert (Hcols : 6 <= columns single_row) by (simpl; lia).
  assert (Hrows : length (data single_row) < 2) by (simpl; lia).
  split; [exact Hcols|]. split; [exact Hrows|].
  destruct (short_input_passthrough NDI_MAX_POSITION_CHANGE single_row
              Hcols Hrows) as (Hloop & Hrun & _).
  split; [exact Hloop|exact Hrun].
Defined.

(** C9.  In a run that returns normally, rows 0 and 1 of the output are
    rows 0 and 1 of the input cut to the first six columns, cell for
    cell. *)
Theorem first_two_rows_untouched (m : Q) (df out : DataFrame) (i : nat) :
  label_markers m df = Done out ->
  i < 2 ->
  data out !! i = take 6 <$> data df !! i.
Proof.
  intros Hrun Hi. unfold label_markers in Hrun.
  destruct (columns df <? 6); [discriminate|].
  destruct (for_each _ _ _) as [st|] eqn:Hloop; [|discriminate].
  simpl in Hrun. inversion Hrun; subst out; clear Hrun. simpl.
  destruct (loop_frame m df _ st Hloop) as [_ Hrows].
  change (map (take 6) (labelled st)) with (take 6 <$> labelled st).
  rewrite list_lookup_fmap, Hrows by lia. reflexivity.
Qed.

Lemma first_two_rows_untouched_witness :
  data three_slots_labelled !! 1 = take 6 <$> data three_slots !! 1.
Proof.
  apply (first_two_rows_untouched NDI_MAX_POSITION_CHANGE three_slots
           three_slots_labelled 1).
  - vm_compute. reflexivity.
  - lia.
Defined.

(** * The resampler *)

Lemma Qceiling_gt (z : Z) (x : Q) :
  (z < Qceiling x)%Z <-> (inject_Z z < x)%Q.
Proof.
  split; intros H.
  - apply Qle_lt_trans with (inject_Z (Qceiling x - 1)).
    + rewrite <- Zle_Qle. lia.
    + apply Qceiling_lt.
  - rewrite Zlt_Qlt. eapply Qlt_le_trans; [exact H|apply Qle_ceiling].
Qed.

(** The values of [np.arange(0, stop, step)] are counted by the strict
    comparison with [stop]. *)
Lemma arange_length (stop step : Q) (j : nat) :
  (0 < step)%Q ->
  j < length (arange 0 stop step) <-> (of_nat j * step < stop)%Q.
Proof.
  intros Hstep. unfold arange. rewrite length_map, length_seq.
  assert (Hne : ~ (step == 0)%Q).
  { intros E. rewrite E in Hstep. exact (Qlt_irrefl _ Hstep). }
  transitivity (Z.of_nat j < Qceiling ((stop - 0) / step))%Z; [lia|].
  rewrite Qceiling_gt. fold (of_nat j).
  assert (E : ((stop - 0) / step == stop / step)%Q) by (field; exact Hne).
  rewrite E. split; intros H.
  - apply (Qmult_lt_r _ _ step Hstep) in H.
    rewrite Qmult_comm, (Qmult_comm (stop / step)), Qmult_div_r in H
      by exact Hne.
    now rewrite Qmult_comm.
  - apply Qlt_shift_div_l; assumption.
Qed.

Lemma arange_lookup (start stop step : Q) (j : nat) :
  j < length (arange start stop step) ->
  arange start stop step !! j = Some (start + of_nat j * step)%Q.
Proof.
  unfold arange. rewrite length_map, length_seq. intros H.
  change (map ?f ?l) with (f <$> l).
  rewrite list_lookup_fmap, lookup_seq_lt by exact H. reflexivity.
Qed.

Lemma arange_In (start stop step t : Q) :
  In t (arange start stop step) ->
  exists j, j < length (arange start stop step) /\
            t = (start + of_nat j * step)%Q.
Proof.
  unfold arange. rewrite length_map, length_seq, in_map_iff.
  intros (j & <- & Hj). apply in_seq in Hj. exists j. split; [lia|reflexivity].
Qed.

Lemma of_nat_nonneg (j : nat) : (0 <= of_nat j)%Q.
Proof.
  unfold of_nat. change 0%Q with (inject_Z 0). rewrite <- Zle_Qle. lia.
Qed.

Lemma column_values_length (df : DataFrame) (c : nat) :
  length (column_values df c) = length (data df).
Proof. unfold column_values. now rewrite length_map. Qed.

Lemma from_columns_shape (c : list Q) (cols : list (list Q)) :
  columns (from_columns (c :: cols)) = S (length cols) /\
  length (data (from_columns (c :: cols))) = length c.
Proof. simpl. now rewrite length_map, length_seq. Qed.

Section ResamplerProperties.

Variables origin target : Q.
Variables spline extrapolate : list Q -> list Q -> Q -> Q.

Lemma original_time_length (n : nat) : length (original_time origin n) = n.
Proof.
  unfold original_time, arange_n. now rewrite !length_map, length_seq.
Qed.

Lemma original_time_lookup (n i : nat) :
  i < n -> original_time origin n !! i = Some (of_nat i / origin)%Q.
Proof.
  intros H. unfold original_time, arange_n.
  change (map ?f ?l) with (f <$> l).
  rewrite !list_lookup_fmap, lookup_seq_lt by exact H. reflexivity.
Qed.

Lemma original_time_last (n : nat) :
  1 <= n -> last (original_time origin n) = Some (of_nat (n - 1) / origin)%Q.
Proof.
  intros H. rewrite last_lookup, original_time_length.
  replace (Nat.pred n) with (n - 1) by lia.
  apply original_time_lookup. lia.
Qed.

Lemma original_time_head (n : nat) :
  1 <= n -> head (original_time origin n) = Some (of_nat 0 / origin)%Q.
Proof. intros H. destruct n; [lia|reflexivity]. Qed.

Lemma interp1d_fits (x y : list Q) :
  length x = length y -> 4 <= length x ->
  interp1d spline extrapolate x y = Done (evaluate spline extrapolate x y).
Proof.
  intros He H4. unfold interp1d.
  rewrite <- He, Nat.eqb_refl. simpl.
  destruct (length x <? 4) eqn:E; [apply Nat.ltb_lt in E; lia|reflexivity].
Qed.

Lemma interp1d_few (x y : list Q) :
  length x < 4 -> interp1d spline extrapolate x y = Abort ValueError.
Proof.
  intros H. unfold interp1d. destruct (negb _); [reflexivity|].
  apply Nat.ltb_lt in H. now rewrite H.
Qed.

Lemma columns_loop_fits (df : DataFrame) (x new_x : list Q)
    (cs : list nat) (acc : list (list Q)) :
  length x = length (data df) -> 4 <= length x ->
  for_each (interpolate_column spline extrapolate df x new_x) cs acc =
  Done (acc ++ map (fun c =>
                      map (evaluate spline extrapolate x (column_values df c))
                          new_x) cs).
Proof.
  intros Hx H4. revert acc. induction cs as [|c cs IH]; intros acc; simpl.
  - now rewrite app_nil_r.
  - unfold interpolate_column at 1.
    rewrite interp1d_fits by (rewrite ?column_values_length; assumption).
    simpl. rewrite IH, <- app_assoc. reflexivity.
Qed.

Lemma columns_loop_few (df : DataFrame) (x new_x : list Q)
    (c : nat) (cs : list nat) (acc : list (list Q)) :
  length x < 4 ->
  for_each (interpolate_column spline extrapolate df x new_x) (c :: cs) acc =
  Abort ValueError.
Proof.
  intros H. simpl. unfold interpolate_column.
  now rewrite interp1d_few by exact H.
Qed.

(** What a run that returns normally has computed. *)
Lemma interpolate_data_done (df out : DataFrame) :
  interpolate_data origin target spline extrapolate df = Done out ->
  let n := length (data df) in
  let x := original_time origin n in
  let stop := (of_nat (n - 1) / origin)%Q in
  1 <= n /\ (0 < columns df -> 4 <= n) /\
  out = from_columns
          (map (fun c => map (evaluate spline extrapolate x
                                (column_values df c))
                             (desired_time target stop))
               (seq 0 (columns df))).
Proof.
  intros Hrun n x stop. unfold interpolate_data in Hrun. fold n x in Hrun.
  destruct (Nat.eq_dec n 0) as [E|E].
  { unfold x in Hrun. rewrite E in Hrun. discriminate. }
  unfold last_item in Hrun. unfold x in Hrun.
  rewrite original_time_last in Hrun by lia. fold x stop in Hrun.
  simpl in Hrun.
  destruct (le_lt_dec 4 n) as [H4|H4].
  - rewrite columns_loop_fits in Hrun
      by (unfold x; rewrite original_time_length; fold n; lia).
    simpl in Hrun. inversion Hrun. repeat split; lia.
  - destruct (columns df) as [|k] eqn:Ek.
    + simpl in Hrun. inversion Hrun. repeat split; lia.
    + simpl seq in Hrun. rewrite columns_loop_few in Hrun
        by (unfold x; rewrite original_time_length; exact H4).
      discriminate.
Qed.

(** C7.  For a frame with at least one column: without any sample the
    stage stops on the last source timestamp, with one to three samples the
    cubic fit of the first column raises, and either way nothing is
    written; with four samples or more every column is fitted and the
    frame is produced. *)
Theorem cubic_fit_needs_four_samples (df : DataFrame) :
  0 < columns df ->
  (length (data df) = 0 ->
     interpolate_data origin target spline extrapolate df
       = Abort IndexError) /\
  (1 <= length (data df) < 4 ->
     interpolate_data origin target spline extrapolate df
       = Abort ValueError) /\
  (4 <= length (data df) ->
     exists out,
       interpolate_data origin target spline extrapolate df = Done out).
Proof.
  intros Hc. unfold interpolate_data. repeat split.
  - intros ->. reflexivity.
  - intros HN. unfold last_item. rewrite original_time_last by lia. simpl.
    destruct (columns df) as [|k]; [lia|]. simpl seq.
    rewrite columns_loop_few by (rewrite original_time_length; lia).
    reflexivity.
  - intros HN. unfold last_item. rewrite original_time_last by lia. simpl.
    rewrite columns_loop_fits by (rewrite original_time_length; lia).
    simpl. eauto.
Qed.

Hypothesis origin_pos : (0 < origin)%Q.
Hypothesis target_pos : (0 < target)%Q.

Lemma step_pos : (0 < 1 / target)%Q.
Proof. apply Qlt_shift_div_l; [exact target_pos|]. now rewrite Qmult_0_l. Qed.

Lemma desired_time_length (stop : Q) (j : nat) :
  j < length (desired_time target stop) <-> (of_nat j / target < stop)%Q.
Proof.
  unfold desired_time. rewrite arange_length by exact step_pos.
  assert (E : (of_nat j * (1 / target) == of_nat j / target)%Q).
  { unfold Qdiv. now rewrite Qmult_1_l. }
  now rewrite E.
Qed.

Lemma desired_time_lookup (stop : Q) (j : nat) :
  j < length (desired_time target stop) ->
  exists v, desired_time target stop !! j = Some v /\
            (v == of_nat j / target)%Q.
Proof.
  intros H. unfold desired_time in *. rewrite arange_lookup by exact H.
  eexists; split; [reflexivity|]. unfold Qdiv. ring.
Qed.

Lemma desired_time_bounds (stop t : Q) :
  In t (desired_time target stop) -> (0 <= t /\ t < stop)%Q.
Proof.
  intros Hin. unfold desired_time in Hin. apply arange_In in Hin.
  destruct Hin as (j & Hj & ->).
  apply (arange_length _ _ _ step_pos) in Hj.
  rewrite Qplus_0_l. split; [|exact Hj].
  apply Qmult_le_0_compat; [apply of_nat_nonneg|].
  apply Qlt_le_weak, step_pos.
Qed.

(** C6.  For [N >= 1] samples: the source axis holds [i / origin] at
    position [i < N] and ends in [t_last = (N - 1) / origin]; position [j]
    of the target axis exists exactly when [j / target < t_last] and holds
    a value equal to [j / target]; a frame the stage produces from [N]
    rows (and at least one column) has as many rows as the target axis
    has timestamps; and from four rows on the stage does produce such a
    frame, with the columns of its input. *)
Theorem resampler_time_axes (N : nat) :
  1 <= N ->
  (forall i, i < N ->
     original_time origin N !! i = Some (of_nat i / origin)%Q) /\
  last (original_time origin N) = Some (of_nat (N - 1) / origin)%Q /\
  (forall j,
     j < length (desired_time target (of_nat (N - 1) / origin))
     <-> (of_nat j / target < of_nat (N - 1) / origin)%Q) /\
  (forall j,
     j < length (desired_time target (of_nat (N - 1) / origin)) ->
     exists v,
       desired_time target (of_nat (N - 1) / origin) !! j = Some v /\
       (v == of_nat j / target)%Q) /\
  (forall df out,
     length (data df) = N -> 0 < columns df ->
     interpolate_data origin target spline extrapolate df = Done out ->
     columns out = columns df /\
     length (data out)
       = length (desired_time target (of_nat (N - 1) / origin))) /\
  (forall df,
     length (data df) = N -> 0 < columns df -> 4 <= N ->
     exists out,
       interpolate_data origin target spline extrapolate df = Done out /\
       columns out = columns df /\
       length (data out)
         = length (desired_time target (of_nat (N - 1) / origin)) /\
       forall j,
         j < length (data out)
         <-> (of_nat j / target < of_nat (N - 1) / origin)%Q).
Proof using origin_pos target_pos.
  intros HN.
  assert (Hshape : forall df out,
            length (data df) = N -> 0 < columns df ->
            interpolate_data origin target spline extrapolate df = Done out ->
            columns out = columns df /\
            length (data out)
              = length (desired_time target (of_nat (N - 1) / origin))).
  { intros df out Hlen Hcols Hrun.
    destruct (interpolate_data_done df out Hrun) as (_ & _ & ->).
    rewrite Hlen. destruct (columns df) as [|k]; [lia|]. simpl seq.
    rewrite map_cons.
    match goal with |- context [from_columns (?c :: ?cols)] =>
      destruct (from_columns_shape c cols) as [-> ->]
    end.
    now rewrite !length_map, length_seq. }
  split; [|split; [|split; [|split; [|split]]]].
  - intros i. apply original_time_lookup.
  - now apply original_time_last.
  - intros j. apply desired_time_length.
  - intros j. apply desired_time_lookup.
  - exact Hshape.
  - intros df Hlen Hcols H4.
    assert (Hrun : exists out,
              interpolate_data origin target spline extrapolate df
              = Done out).
    { unfold interpolate_data, last_item.
      rewrite original_time_last by lia. simpl.
      rewrite columns_loop_fits by (rewrite original_time_length; lia).
      simpl. eauto. }
    destruct Hrun as [out Hrun]. exists out.
    destruct (Hshape df out Hlen Hcols Hrun) as [Hc Hr].
    split; [exact Hrun|]. split; [exact Hc|]. split; [exact Hr|].
    intros j. rewrite Hr. apply desired_time_length.
Qed.

(** C10.  For [N >= 2] samples every target timestamp lies in the closed
    source range [0, t_last], so a frame the stage produces holds the
    values of the spline inside the source range only: the extrapolation
    is not evaluated anywhere. *)
Theorem targets_inside_source_range (N : nat) :
  2 <= N ->
  (forall t,
     In t (desired_time target (of_nat (N - 1) / origin)) ->
     (0 <= t)%Q /\ (t <= of_nat (N - 1) / origin)%Q /\
     in_range (original_time origin N) t = true) /\
  (forall df out,
     length (data df) = N ->
     interpolate_data origin target spline extrapolate df = Done out ->
     out = from_columns
             (map (fun c =>
                     map (spline (original_time origin N)
                            (column_values df c))
                         (desired_time target (of_nat (N - 1) / origin)))
                  (seq 0 (columns df)))).
Proof using origin_pos target_pos.
  intros HN.
  assert (Hin : forall t,
     In t (desired_time target (of_nat (N - 1) / origin)) ->
     (0 <= t)%Q /\ (t <= of_nat (N - 1) / origin)%Q /\
     in_range (original_time origin N) t = true).
  { intros t Ht. apply desired_time_bounds in Ht. destruct Ht as [H0 H1].
    repeat split; [exact H0|now apply Qlt_le_weak|].
    unfold in_range.
    rewrite original_time_head, original_time_last by lia.
    apply andb_true_iff. split; apply Qle_bool_iff.
    - unfold of_nat, Qdiv. simpl inject_Z. now rewrite Qmult_0_l.
    - now apply Qlt_le_weak. }
  split; [exact Hin|].
  intros df out Hlen Hrun.
  destruct (interpolate_data_done df out Hrun) as (_ & _ & ->).
  rewrite Hlen. f_equal. apply map_ext. intros c.
  apply map_ext_in. intros t Ht. unfold evaluate.
  destruct (Hin t Ht) as (_ & _ & ->). reflexivity.
Qed.

End ResamplerProperties.

Lemma cubic_fit_needs_four_samples_witness :
  interpolate_data NDI_ORIGINAL_FRAME_RATE NDI_DESIRED_FRAME_RATE hold hold
    drift_start = Abort ValueError /\
  exists out,
    interpolate_data NDI_ORIGINAL_FRAME_RATE NDI_DESIRED_FRAME_RATE hold hold
      drift = Done out.
Proof.
  split.
  - apply (cubic_fit_needs_four_samples NDI_ORIGINAL_FRAME_RATE
             NDI_DESIRED_FRAME_RATE hold hold drift_start); simpl; lia.
  - apply (cubic_fit_needs_four_samples NDI_ORIGINAL_FRAME_RATE
             NDI_DESIRED_FRAME_RATE hold hold drift); simpl; lia.
Defined.

Lemma resampler_time_axes_witness :
  1 <= 5 /\
  (6 < length (desired_time NDI_DESIRED_FRAME_RATE
                 (of_nat (5 - 1) / NDI_ORIGINAL_FRAME_RATE))
   <-> (of_nat 6 / NDI_DESIRED_FRAME_RATE
        < of_nat (5 - 1) / NDI_ORIGINAL_FRAME_RATE)%Q) /\
  (7 < length (desired_time NDI_DESIRED_FRAME_RATE
                 (of_nat (5 - 1) / NDI_ORIGINAL_FRAME_RATE))
   <-> (of_nat 7 / NDI_DESIRED_FRAME_RATE
        < of_nat (5 - 1) / NDI_ORIGINAL_FRAME_RATE)%Q) /\
  length (data drift) = 5 /\ 0 < columns drift /\
  length (desired_time NDI_DESIRED_FRAME_RATE
            (of_nat (5 - 1) / NDI_ORIGINAL_FRAME_RATE)) = 7 /\
  exists out,
    interpolate_data NDI_ORIGINAL_FRAME_RATE NDI_DESIRED_FRAME_RATE
      hold hold drift = Done out /\
    columns out = columns drift /\
    length (data out)
    = length (desired_time NDI_DESIRED_FRAME_RATE
                (of_nat (5 - 1) / NDI_ORIGINAL_FRAME_RATE)).
Proof.
  destruct (resampler_time_axes NDI_ORIGINAL_FRAME_RATE
              NDI_DESIRED_FRAME_RATE hold hold eq_refl eq_refl 5
              ltac:(lia)) as (_ & _ & Hcount & _ & _ & Hrun).
  split; [lia|]. split; [apply Hcount|]. split; [apply Hcount|].
  split; [reflexivity|]. split; [simpl; lia|].
  split; [vm_compute; reflexivity|].
  destruct (Hrun drift eq_refl ltac:(simpl; lia) ltac:(lia))
    as (out & H1 & H2 & H3 & _).
  exists out. split; [exact H1|]. split; [exact H2|exact H3].
Defined.

Lemma targets_inside_source_range_witness :
  (0 <= 0 + of_nat 6 * (1 / NDI_DESIRED_FRAME_RATE))%Q /\
  (0 + of_nat 6 * (1 / NDI_DESIRED_FRAME_RATE)
   <= of_nat (5 - 1) / NDI_ORIGINAL_FRAME_RATE)%Q /\
  in_range (original_time NDI_ORIGINAL_FRAME_RATE 5)
    (0 + of_nat 6 * (1 / NDI_DESIRED_FRAME_RATE))%Q = true.
Proof.
  apply (targets_inside_source_range NDI_ORIGINAL_FRAME_RATE
           NDI_DESIRED_FRAME_RATE hold hold eq_refl eq_refl 5 ltac:(lia)).
  unfold desired_time, arange. apply in_map_iff. exists 6.
  split; [reflexivity|]. apply in_seq. vm_compute. lia.
Defined.

(** * Further properties of the tracker *)

Lemma for_each_seq_abort {S : Type} (body : nat -> S -> outcome S)
    (P : nat -> S -> Prop) (n a : nat) (st : S) (e : exit) :
  P a st ->
  (forall i s s', a <= i < a + n -> P i s -> body i s = Done s' ->
                  P (Datatypes.S i) s') ->
  for_each body (seq a n) st = Abort e ->
  exists i s, a <= i < a + n /\ P i s /\ body i s = Abort e.
Proof.
  revert a st. induction n as [|n IH]; intros a st H0 Hstep Hrun; simpl in Hrun.
  - discriminate.
  - destruct (body a st) as [s1|e1] eqn:Hb.
    + destruct (IH (Datatypes.S a) s1) as (i & s & Hi & HP & Hbi).
      * apply (Hstep a st s1); [lia|exact H0|exact Hb].
      * intros i s s' Hi. apply Hstep. lia.
      * exact Hrun.
      * exists i, s. split; [lia|]. split; assumption.
    + inversion Hrun; subst. exists a, st. split; [lia|]. split; assumption.
Qed.

Lemma iteration_abort_kinds (m : Q) (idx : nat) (st : state) (r : row)
    (e : exit) :
  labelled st !! idx = Some r ->
  6 <= length r ->
  iteration m idx st = Abort e ->
  (idx = 1 /\ length (group_markers r) <> 2 /\
   e = InitialMarkerCount (length (group_markers r))) \/
  (idx <> 1 /\
   length (collect m (prev_pos st) (group_markers r)) <> 2 /\
   e = MarkerLostTrack idx).
Proof.
  intros Hr H6 Hrun. destruct (Nat.eq_dec idx 1) as [->|Hne].
  - left. rewrite (iteration_init m st r Hr) in Hrun.
    destruct (group_markers r) as [|? [|? [|? ?]]]; simpl in *;
      inversion Hrun; subst; repeat split; try reflexivity; lia.
  - right.
    destruct (Nat.eq_dec (length (collect m (prev_pos st) (group_markers r))) 2)
      as [H2|H2].
    + destruct (collect m (prev_pos st) (group_markers r))
        as [|c1 [|c2 [|? ?]]] eqn:Hc; simpl in H2; try lia.
      rewrite (iteration_update m idx st r c1 c2 Hne Hr H6 Hc) in Hrun.
      discriminate.
    + rewrite (iteration_lost m idx st r Hne Hr H2) in Hrun.
      inversion Hrun; subst. repeat split; assumption.
Qed.

(** X2.  On a rectangular frame [label_markers] ends without output in one
    of three ways only: too few columns, a row 1 that does not hold exactly
    two detections, or track loss at a row from 2 on.  It never stops on a
    missing row or column. *)
Theorem label_markers_failures (m : Q) (df : DataFrame) (e : exit) :
  rectangular df ->
  label_markers m df = Abort e ->
  (columns df < 6 /\ e = NotEnoughColumns (columns df)) \/
  (exists r, data df !! 1 = Some r /\ length (group_markers r) <> 2 /\
             e = InitialMarkerCount (length (group_markers r))) \/
  (exists idx, 2 <= idx < length (data df) /\ e = MarkerLostTrack idx).
Proof.
  intros Hrect Hrun. unfold label_markers in Hrun.
  destruct (columns df <? 6) eqn:Hc.
  { left. apply Nat.ltb_lt in Hc. inversion Hrun. now split. }
  right. apply Nat.ltb_ge in Hc.
  destruct (for_each _ _ _) as [st|e'] eqn:Hloop; [discriminate|].
  simpl in Hrun. inversion Hrun; subst e'; clear Hrun.
  destruct (for_each_seq_abort (iteration m) (tracked m df) _ 1 _ e
              (tracked_start m df Hrect Hc)
              (fun i s s' Hi => tracked_step m df i s s' (proj1 Hi))
              Hloop) as (i & s & Hi & Htr & Hbody).
  destruct Htr as (Hlen & Hrows & Hwide & _).
  assert (Hlt : i < length (labelled s)) by lia.
  destruct (lookup_lt_is_Some_2 _ _ Hlt) as [r Hr].
  assert (H6 : 6 <= length r).
  { rewrite Forall_lookup in Hwide. exact (Hwide i r Hr). }
  destruct (iteration_abort_kinds m i s r e Hr H6 Hbody)
    as [(-> & Hn & ->)|(Hne & Hn & ->)].
  - left. exists r. rewrite <- (Hrows 1) by lia. auto.
  - right. exists i. split; [lia|reflexivity].
Qed.

Lemma group_markers_wide (r : row) :
  length (group_markers r) = 2 -> 6 <= length r.
Proof.
  unfold group_markers.
  destruct r as [|a [|b [|c [|d [|e [|f r']]]]]]; simpl; try discriminate;
    try lia;
    rewrite ?filter_cons, ?filter_nil;
    repeat case_decide; simpl; intros; try discriminate; lia.
Qed.

Lemma updated_row_relabel (r : row) (p q : point) (id2 : marker_id) :
  6 <= length r ->
  updated_row r (p, marker1) (q, id2) = relabel r (p, q) /\
  updated_row r (q, marker2) (p, id2) = relabel r (p, q).
Proof.
  intros H. destruct p as [[px py] pz], q as [[qx qy] qz].
  destruct r as [|? [|? [|? [|? [|? [|? ?]]]]]]; simpl in H; try lia.
  split; reflexivity.
Qed.

Lemma row_pos_relabel (r : row) (cur : point * point) :
  row_pos (relabel r cur) marker1 = Some cur.1 /\
  row_pos (relabel r cur) marker2 = Some cur.2.
Proof. destruct cur as [[[? ?] ?] [[? ?] ?]]. split; reflexivity. Qed.

Lemma take6_relabel (r : row) (cur : point * point) :
  take 6 (relabel r cur) = coords cur.1 ++ coords cur.2.
Proof. destruct cur as [[[? ?] ?] [[? ?] ?]]. reflexivity. Qed.

Lemma follows_step (m : Q) (idx : nat) (st : state) (r : row)
    (p q : point) (cur : point * point) :
  idx <> 1 ->
  labelled st !! idx = Some r ->
  prev_pos st = mkPrevPos (Some p) (Some q) ->
  follows m (p, q) r cur ->
  iteration m idx st =
  Done (mkState (<[idx := relabel r cur]> (labelled st))
          (mkPrevPos (Some cur.1) (Some cur.2))).
Proof.
  intros Hidx Hr Hpp (Hm & H11 & H22 & H12 & H21).
  destruct cur as [a b]. simpl in *.
  assert (H6 : 6 <= length r).
  { apply group_markers_wide. destruct Hm as [-> | ->]; reflexivity. }
  assert (Hc : exists c1 c2,
             collect m (prev_pos st) (group_markers r) = [c1; c2] /\
             updated_row r c1 c2 = relabel r (a, b)).
  { rewrite collect_candidate_pairs, Hpp.
    destruct Hm as [-> | ->]; unfold candidate_pairs; simpl;
      rewrite H11, H22, H12, H21; simpl.
    - exists (a, marker1), (b, marker2). split; [reflexivity|].
      apply updated_row_relabel, H6.
    - exists (b, marker2), (a, marker1). split; [reflexivity|].
      apply updated_row_relabel, H6. }
  destruct Hc as (c1 & c2 & Hc & Hu).
  rewrite (iteration_update m idx st r c1 c2 Hidx Hr H6 Hc), Hu.
  destruct (row_pos_relabel r (a, b)) as [-> ->]. reflexivity.
Qed.

Lemma separated_loop (m : Q) (rest : list row) :
  forall (done : list row) (prev : point * point)
         (track : list (point * point)),
    2 <= length done ->
    separated m prev rest track ->
    exists pp,
      for_each (iteration m) (seq (length done) (length rest))
        (mkState (done ++ rest) (mkPrevPos (Some prev.1) (Some prev.2)))
      = Done (mkState (done ++ zip_with relabel rest track) pp).
Proof.
  induction rest as [|r rest IH]; intros done prev track Hd Hsep.
  - destruct track; [|contradiction]. simpl. eauto.
  - destruct track as [|cur track]; [contradiction|].
    destruct Hsep as [Hf Hsep]. simpl seq. simpl for_each.
    destruct prev as [p q].
    rewrite (follows_step m (length done) _ r p q cur);
      [|lia|simpl; now rewrite list_lookup_middle|reflexivity|exact Hf].
    simpl labelled.
    rewrite insert_app_r_alt by lia. rewrite Nat.sub_diag. simpl insert.
    specialize (IH (done ++ [relabel r cur]) cur track).
    rewrite length_app in IH. simpl in IH.
    replace (length done + 1) with (S (length done)) in IH by lia.
    destruct (IH ltac:(lia) Hsep) as [pp Hpp].
    rewrite <- app_assoc in Hpp. simpl in Hpp.
    exists pp. rewrite Hpp. simpl. now rewrite <- app_assoc.
Qed.

Lemma separated_length (m : Q) (rest : list row) :
  forall prev track, separated m prev rest track -> length rest = length track.
Proof.
  induction rest as [|r rest IH]; intros prev [|cur track] H;
    simpl in *; try contradiction; [reflexivity|].
  destruct H as [_ H]. f_equal. exact (IH cur track H).
Qed.

Lemma take6_zip_relabel (rest : list row) :
  forall track : list (point * point),
    length rest = length track ->
    map (take 6) (zip_with relabel rest track) =
    map (fun cur : point * point => coords cur.1 ++ coords cur.2) track.
Proof.
  induction rest as [|r rest IH]; intros [|cur track] H;
    simpl in *; try discriminate; [reflexivity|].
  rewrite take6_relabel. f_equal. apply IH. lia.
Qed.

(** X4.  If from row 2 on every row holds exactly two detections, each
    within the gate of one identity's previous position and outside the
    gate of the other's, the stage succeeds and writes each identity's own
    detection into its columns, whatever the order of the two detections
    in the row; rows 0 and 1 are cut to six columns. *)
Theorem separated_tracking (m : Q) (df : DataFrame) (r0 r1 : row)
    (rest : list row) (p q : point) (track : list (point * point)) :
  6 <= columns df ->
  data df = r0 :: r1 :: rest ->
  group_markers r1 = [p; q] ->
  separated m (p, q) rest track ->
  label_markers m df =
  Done (mkDataFrame 6
          (take 6 r0 :: take 6 r1 ::
           map (fun cur : point * point => coords cur.1 ++ coords cur.2)
               track)).
Proof.
  intros Hcols Hdata Hinit Hsep.
  rewrite label_markers_unfold by exact Hcols. unfold start. rewrite Hdata.
  simpl length. replace (S (S (length rest)) - 1) with (S (length rest)) by lia.
  simpl seq. simpl for_each.
  rewrite (iteration_init m _ r1) by reflexivity. rewrite Hinit.
  destruct (separated_loop m rest [r0; r1] (p, q) track ltac:(simpl; lia) Hsep)
    as [pp Hpp].
  simpl in Hpp. simpl for_each. rewrite Hpp.
  unfold first_six. cbn [columns data labelled].
  rewrite Nat.min_l by exact Hcols. rewrite !map_cons. do 4 f_equal.
  apply take6_zip_relabel. exact (separated_length m rest _ _ Hsep).
Qed.

Lemma iteration_not_init (m : Q) (idx k : nat) (st : state) :
  idx <> 1 -> iteration m idx st <> Abort (InitialMarkerCount k).
Proof.
  intros Hidx H. unfold iteration, iloc in H.
  destruct (labelled st !! idx) as [r|]; [|discriminate]. simpl in H.
  apply Nat.eqb_neq in Hidx. rewrite Hidx in H.
  destruct (collect _ _ _) as [|[? ?] [|[? ?] [|? ?]]]; try discriminate.
  unfold values3 in H.
  repeat (match type of H with
          | context [match ?x with Some _ => _ | None => _ end] => destruct x
          end; simpl in H; try discriminate).
Qed.

(** X3.  With at least six columns, the row at index 1 alone decides
    initialization: unless it holds exactly two detections the stage ends
    with the initial-count warning carrying their number, and if it does
    the stage never ends that way, whatever the other rows hold. *)
Theorem initialization_by_row_one (m : Q) (df : DataFrame) (r : row) :
  6 <= columns df ->
  data df !! 1 = Some r ->
  (length (group_markers r) <> 2 ->
   label_markers m df
     = Abort (InitialMarkerCount (length (group_markers r)))) /\
  (length (group_markers r) = 2 ->
   forall k, label_markers m df <> Abort (InitialMarkerCount k)).
Proof.
  intros Hcols Hr.
  assert (Hlen : 2 <= length (data df)).
  { apply lookup_lt_Some in Hr. lia. }
  rewrite label_markers_unfold by exact Hcols.
  replace (length (data df) - 1) with (S (length (data df) - 2)) by lia.
  simpl seq. simpl for_each.
  rewrite (iteration_init m (start df) r Hr).
  split.
  - intros Hn. destruct (group_markers r) as [|? [|? [|? ?]]];
      simpl in Hn; try reflexivity. lia.
  - intros H2 k. destruct (group_markers r) as [|m0 [|m1 [|? ?]]];
      simpl in H2; try lia.
    destruct (for_each _ _ _) as [s|e] eqn:Hloop; [discriminate|].
    intros He. inversion He; subst e.
    destruct (for_each_seq_abort (iteration m) (fun _ _ => True) _ 2 _ _
                I (fun _ _ _ _ _ _ => I) Hloop) as (i & s & Hi & _ & Hb).
    apply (iteration_not_init m i k s); [lia|exact Hb].
Qed.

Lemma within_nonpos (m : Q) (p q : point) :
  (m <= 0)%Q -> within m p q = false.
Proof.
  intros H. unfold within, Qltb.
  apply Qle_bool_iff in H. now rewrite H.
Qed.

Lemma candidate_pairs_closed_gate (m : Q) (pp : PrevPos) (pts : list point) :
  (m <= 0)%Q -> candidate_pairs m pp pts = [].
Proof.
  intros H.
  destruct (candidate_pairs m pp pts) as [|[p id] l] eqn:E; [reflexivity|].
  destruct (candidate_pairs_In m pp pts p id) as (_ & q & _ & Hw).
  { rewrite E. now left. }
  rewrite within_nonpos in Hw by exact H. discriminate.
Qed.

(** X6.  With a gate that is zero or negative no detection ever passes:
    a frame of three rows or more that initializes loses track at row 2. *)
Theorem gate_must_be_positive (m : Q) (df : DataFrame) (r : row) :
  (m <= 0)%Q ->
  6 <= columns df ->
  3 <= length (data df) ->
  data df !! 1 = Some r ->
  length (group_markers r) = 2 ->
  label_markers m df = Abort (MarkerLostTrack 2).
Proof.
  intros Hm Hcols Hlen Hr H2.
  rewrite label_markers_unfold by exact Hcols.
  replace (length (data df) - 1) with (S (S (length (data df) - 3))) by lia.
  simpl seq. simpl for_each.
  rewrite (iteration_init m (start df) r Hr).
  destruct (group_markers r) as [|m0 [|m1 [|? ?]]]; simpl in H2; try lia.
  destruct (lookup_lt_is_Some_2 (data df) 2 ltac:(lia)) as [r2 Hr2].
  rewrite (iteration_lost m 2 _ r2); [reflexivity|lia|exact Hr2|].
  rewrite collect_candidate_pairs, candidate_pairs_closed_gate by exact Hm.
  simpl. lia.
Qed.

(** X5.  An update on a row without any detection loses track.  On a row
    with a single detection it succeeds exactly when that detection is
    within the gate of both previous positions, and then both identities
    are bound to it; otherwise it loses track. *)
Theorem fewer_than_two_detections (m : Q) (idx : nat) (st : state) (r : row)
    (a b : point) :
  idx <> 1 ->
  labelled st !! idx = Some r ->
  6 <= length r ->
  prev_pos st = mkPrevPos (Some a) (Some b) ->
  (group_markers r = [] ->
   iteration m idx st = Abort (MarkerLostTrack idx)) /\
  (forall p, group_markers r = [p] ->
     iteration m idx st =
     if within m p a && within m p b
     then Done (mkState (<[idx := relabel r (p, p)]> (labelled st))
                  (mkPrevPos (Some p) (Some p)))
     else Abort (MarkerLostTrack idx)).
Proof.
  intros Hidx Hr H6 Hpp. split.
  - intros Hm. apply (iteration_lost m idx st r Hidx Hr).
    rewrite Hm. simpl. lia.
  - intros p Hm.
    assert (Hc : collect m (prev_pos st) (group_markers r) =
                 (if within m p a then [(p, marker1)] else []) ++
                 (if within m p b then [(p, marker2)] else [])).
    { rewrite collect_candidate_pairs, Hpp, Hm. unfold candidate_pairs.
      simpl. destruct (within m p a), (within m p b); reflexivity. }
    destruct (within m p a) eqn:Ha, (within m p b) eqn:Hb; simpl in *.
    + rewrite (iteration_update m idx st r _ _ Hidx Hr H6 Hc).
      destruct (updated_row_relabel r p p marker2 H6) as [-> _].
      destruct (row_pos_relabel r (p, p)) as [-> ->]. reflexivity.
    + apply (iteration_lost m idx st r Hidx Hr). now rewrite Hc.
    + apply (iteration_lost m idx st r Hidx Hr). now rewrite Hc.
    + apply (iteration_lost m idx st r Hidx Hr). now rewrite Hc.
Qed.

Lemma detections_only_step (m : Q) (df : DataFrame) (i : nat)
    (s s' : state) :
  1 <= i ->
  detections_only m df i s -> iteration m i s = Done s' ->
  detections_only m df (S i) s'.
Proof.
  intros Hi [Htr Hdet] Hbody.
  split; [exact (tracked_step m df i s s' Hi Htr Hbody)|].
  destruct Htr as (Hlen & Hrows & Hwide & _).
  destruct (Nat.eq_dec i 1) as [->|Hne].
  { intros t r id p Ht. lia. }
  destruct (iteration_update_inv m i s s' Hne Hbody)
    as (r0 & [p1 id1] & [p2 id2] & Hr0 & Hc & Hlab & _).
  assert (Hlt : i < length (labelled s)) by (eapply lookup_lt_Some; eauto).
  assert (H6 : 6 <= length r0).
  { rewrite Forall_lookup in Hwide. exact (Hwide i r0 Hr0). }
  rewrite collect_candidate_pairs in Hc.
  intros t r id p Ht Hr. rewrite Hlab.
  destruct (Nat.eq_dec t i) as [->|Hti].
  - rewrite resolved_insert_eq by assumption.
    rewrite Hrows in Hr0 by lia. rewrite Hr in Hr0. inversion Hr0; subst r0.
    unfold updated_row. simpl. intros Hp.
    assert (Hp' : p = p1 \/ p = p2).
    { assert (Hid : id = id1 \/ id = other id1)
        by (destruct id, id1; auto).
      destruct Hid as [-> | ->].
      - left. rewrite row_pos_write3_other in Hp.
        rewrite row_pos_write3_same in Hp by exact H6. congruence.
      - right. rewrite row_pos_write3_same in Hp
          by (now rewrite write3_length). congruence. }
    destruct Hp' as [-> | ->].
    + apply (candidate_pairs_In m (prev_pos s) _ p1 id1). rewrite Hc. now left.
    + apply (candidate_pairs_In m (prev_pos s) _ p2 id2). rewrite Hc.
      right. now left.
  - rewrite resolved_insert_ne by lia. apply Hdet; [lia|exact Hr].
Qed.

(** X7.  A successful run keeps the number of rows, and from row 2 on
    every position it writes is one of the detections of the same input
    row: nothing is interpolated, held over or invented. *)
Theorem labelled_points_are_detections (m : Q) (df out : DataFrame) :
  rectangular df ->
  label_markers m df = Done out ->
  length (data out) = length (data df) /\
  forall t r id p,
    2 <= t -> data df !! t = Some r ->
    resolved df (data out) t id = Some p -> In p (group_markers r).
Proof.
  intros Hrect Hrun. unfold label_markers in Hrun.
  destruct (columns df <? 6) eqn:Hc; [discriminate|].
  apply Nat.ltb_ge in Hc.
  destruct (for_each _ _ _) as [st|] eqn:Hloop; [|discriminate].
  simpl in Hrun. inversion Hrun; subst out; clear Hrun.
  cbn [data first_six].
  assert (Hinv : detections_only m df (1 + (length (data df) - 1)) st).
  { apply (for_each_seq_inv (iteration m) (detections_only m df)
             _ 1 (start df) st); [| |exact Hloop].
    - split; [now apply tracked_start|]. intros t r id p Ht. lia.
    - intros i s s' Hi. apply detections_only_step. lia. }
  destruct Hinv as [(Hlen & _) Hdet].
  rewrite length_map. split; [exact Hlen|].
  intros t r id p Ht Hr. rewrite resolved_take6.
  apply Hdet; [|exact Hr]. apply lookup_lt_Some in Hr. lia.
Qed.

(** * Further properties of the resampler *)

Lemma nth_seq_rebuild (l : list Q) :
  map (fun j => nth j l 0%Q) (seq 0 (length l)) = l.
Proof.
  induction l as [|a l IH]; simpl; [reflexivity|].
  f_equal. rewrite <- seq_shift, map_map. exact IH.
Qed.

Lemma column_of_from_columns (cols : list (list Q)) (n c : nat) (col : list Q) :
  Forall (fun l : list Q => length l = n) cols ->
  cols !! c = Some col ->
  column_values (from_columns cols) c = col.
Proof.
  intros Hall Hc. unfold column_values, from_columns. simpl.
  destruct cols as [|c0 cols']; [discriminate|].
  assert (H0 : length c0 = n) by (inversion Hall; assumption).
  assert (Hn : length col = n).
  { rewrite Forall_lookup in Hall. exact (Hall c col Hc). }
  rewrite map_map, H0, <- Hn.
  rewrite <- (nth_seq_rebuild col) at 2.
  apply map_ext. intros j.
  apply nth_lookup_Some.
  change (map ?f ?l) with (f <$> l).
  now rewrite list_lookup_fmap, Hc.
Qed.

Section ResampledColumns.

Variables origin target : Q.
Variables spline extrapolate : list Q -> list Q -> Q -> Q.

(** X8.  A frame the resampler produces has the columns of its input, and
    its column [c] is the curve fitted to input column [c] alone, sampled
    on the target axis: no value depends on another column. *)
Theorem resampled_column (df out : DataFrame) (c : nat) :
  interpolate_data origin target spline extrapolate df = Done out ->
  c < columns df ->
  columns out = columns df /\
  column_values out c =
  map (evaluate spline extrapolate
         (original_time origin (length (data df))) (column_values df c))
      (desired_time target (of_nat (length (data df) - 1) / origin)).
Proof.
  intros Hrun Hc.
  destruct (interpolate_data_done origin target spline extrapolate df out Hrun)
    as (_ & _ & ->).
  split; [simpl; now rewrite length_map, length_seq|].
  eapply column_of_from_columns.
  - apply Forall_forall. intros l Hl. apply list_elem_of_In in Hl.
    apply in_map_iff in Hl. destruct Hl as (k & <- & _).
    rewrite length_map. reflexivity.
  - change (map ?f ?l) with (f <$> l) at 1.
    rewrite list_lookup_fmap, lookup_seq_lt by exact Hc. reflexivity.
Qed.

End ResampledColumns.

Lemma length_by_bound (a b : nat) :
  (forall j, j < a <-> j < b) -> a = b.
Proof.
  intros H. destruct (Nat.lt_trichotomy a b) as [Hlt|[->|Hgt]];
    [|reflexivity|].
  - apply (H a) in Hlt. lia.
  - apply (H b) in Hgt. lia.
Qed.

Lemma configured_bound (j n : nat) :
  (of_nat j / NDI_DESIRED_FRAME_RATE < of_nat n / NDI_ORIGINAL_FRAME_RATE)%Q
  <-> 3 * j < 5 * n.
Proof.
  unfold Qlt, Qdiv, Qmult, Qinv, of_nat, NDI_DESIRED_FRAME_RATE,
    NDI_ORIGINAL_FRAME_RATE. simpl. lia.
Qed.

Lemma configured_axis_length (n : nat) :
  length (desired_time NDI_DESIRED_FRAME_RATE
            (of_nat n / NDI_ORIGINAL_FRAME_RATE)) = (5 * n + 2) / 3.
Proof.
  apply length_by_bound. intros j.
  rewrite (desired_time_length NDI_DESIRED_FRAME_RATE eq_refl).
  rewrite configured_bound.
  pose proof (Nat.div_mod_eq (5 * n + 2) 3).
  pose proof (Nat.mod_upper_bound (5 * n + 2) 3).
  lia.
Qed.

(** X9.  At the configured rates (60 Hz in, 100 Hz out) a frame produced
    from [N] rows and at least one column has [(5 * (N - 1) + 2) / 3] rows,
    that is, 5 (N - 1) / 3 rounded up. *)
Theorem configured_row_count
    (spline extrapolate : list Q -> list Q -> Q -> Q) (df out : DataFrame) :
  0 < columns df ->
  interpolate_data NDI_ORIGINAL_FRAME_RATE NDI_DESIRED_FRAME_RATE
    spline extrapolate df = Done out ->
  length (data out) = (5 * (length (data df) - 1) + 2) / 3.
Proof.
  intros Hc Hrun.
  destruct (interpolate_data_done _ _ _ _ df out Hrun) as (_ & _ & ->).
  destruct (columns df) as [|k]; [lia|]. simpl seq. rewrite map_cons.
  match goal with |- context [from_columns (?c :: ?cols)] =>
    destruct (from_columns_shape c cols) as [_ ->]
  end.
  rewrite length_map. apply configured_axis_length.
Qed.

Lemma label_markers_rows (m : Q) (df out : DataFrame) :
  label_markers m df = Done out ->
  columns out = 6 /\ length (data out) = length (data df).
Proof.
  intros Hrun. unfold label_markers in Hrun.
  destruct (columns df <? 6) eqn:Hc; [discriminate|].
  apply Nat.ltb_ge in Hc.
  destruct (for_each _ _ _) as [st|] eqn:Hloop; [|discriminate].
  simpl in Hrun. inversion Hrun; subst out; clear Hrun.
  unfold first_six. cbn [columns data].
  destruct (loop_frame m df _ st Hloop) as [Hlen _].
  rewrite length_map. split; [now apply Nat.min_l|exact Hlen].
Qed.

Lemma interpolate_data_outcome (origin target : Q)
    (spline extrapolate : list Q -> list Q -> Q -> Q) (df : DataFrame) :
  0 < columns df ->
  (length (data df) < 4 ->
   exists e, interpolate_data origin target spline extrapolate df = Abort e) /\
  (4 <= length (data df) ->
   exists out, interpolate_data origin target spline extrapolate df = Done out).
Proof.
  intros Hc. unfold interpolate_data. split; intros HN.
  - destruct (length (data df)) as [|n] eqn:En; [simpl; eauto|].
    unfold last_item. rewrite original_time_last by lia. simpl.
    destruct (columns df) as [|k]; [lia|]. simpl seq.
    rewrite columns_loop_few by (rewrite original_time_length; lia).
    simpl. eauto.
  - unfold last_item. rewrite original_time_last by lia. simpl.
    rewrite columns_loop_fits by (rewrite original_time_length; lia).
    simpl. eauto.
Qed.

(** X10.  The two stages in sequence at the configured rates: a frame
    [label_markers] has written from [N] rows cannot be resampled when
    [N < 4], and for [N >= 4] it always can, giving six columns and
    [(5 * (N - 1) + 2) / 3] rows. *)
Theorem labelled_frame_resamples (m : Q)
    (spline extrapolate : list Q -> list Q -> Q -> Q)
    (df lab : DataFrame) :
  label_markers m df = Done lab ->
  (length (data df) < 4 ->
   exists e,
     interpolate_data NDI_ORIGINAL_FRAME_RATE NDI_DESIRED_FRAME_RATE
       spline extrapolate lab = Abort e) /\
  (4 <= length (data df) ->
   exists out,
     interpolate_data NDI_ORIGINAL_FRAME_RATE NDI_DESIRED_FRAME_RATE
       spline extrapolate lab = Done out /\
     columns out = 6 /\
     length (data out) = (5 * (length (data df) - 1) + 2) / 3).
Proof.
  intros Hrun. destruct (label_markers_rows m df lab Hrun) as [Hc Hn].
  destruct (interpolate_data_outcome NDI_ORIGINAL_FRAME_RATE
              NDI_DESIRED_FRAME_RATE spline extrapolate lab
              ltac:(lia)) as [Hfew Hfit].
  rewrite Hn in Hfew, Hfit. split; [exact Hfew|].
  intros HN. destruct (Hfit HN) as [out Hout]. exists out.
  split; [exact Hout|].
  destruct (interpolate_data_done _ _ _ _ lab out Hout) as (_ & _ & Heq).
  rewrite Heq, Hc. simpl seq. rewrite map_cons.
  match goal with |- context [from_columns (?c :: ?cols)] =>
    destruct (from_columns_shape c cols) as [-> ->]
  end.
  split; [now rewrite length_map|].
  rewrite length_map, Hn. apply configured_axis_length.
Qed.

(** * The cleaning stage *)


Lemma flat_map_axis_length (a np : nat) :
  length (flat_map axis_names (seq a np)) = 3 * np.
Proof.
  revert a. induction np as [|np IH]; intros a; simpl; [reflexivity|].
  rewrite IH. lia.
Qed.

Lemma new_columns_length (n : nat) : length (new_columns n) = n.
Proof.
  unfold new_columns. rewrite length_take, flat_map_axis_length.
  pose proof (Nat.div_mod_eq n 3) as Hd.
  pose proof (Nat.mod_upper_bound n 3 ltac:(lia)) as Hm.
  destruct (n mod 3 =? 0) eqn:E;
    [apply Nat.eqb_eq in E | apply Nat.eqb_neq in E]; lia.
Qed.

Lemma replace_missing_present (v : option Q) :
  Qeq_bool (replace_missing v) MISSING = false.
Proof.
  destruct v as [q|]; simpl; [|reflexivity].
  destruct (Qeq_bool q MISSING) eqn:E; [reflexivity|exact E].
Qed.

Section CleanCsvProperties.

Variable to_numeric : string -> option Q.

Lemma keep_cols_bound (ncols : nat) rows (i : nat) :
  In i (keep_cols to_numeric ncols rows) ->
  i < ncols /\ is_numeric_column to_numeric (column_cells rows i) = true.
Proof.
  unfold keep_cols. rewrite List.filter_In, in_seq. intros [H1 H2].
  split; [lia|exact H2].
Qed.

Lemma keep_cols_length (ncols : nat) rows :
  length (keep_cols to_numeric ncols rows) <= ncols.
Proof.
  unfold keep_cols.
  etransitivity; [apply List.filter_length_le|]. now rewrite length_seq.
Qed.

(** X12.  For a rectangular raw frame the cleaned frame is rectangular,
    has one name per column, at most as many columns as follow the 42
    metadata columns, one row fewer than the raw frame (its header row),
    and no cell equal to the device's missing-value code. *)
Theorem clean_csv_shape (raw : RawFrame) :
  raw_rectangular raw ->
  rectangular (clean_csv to_numeric raw).2 /\
  length (clean_csv to_numeric raw).1 = columns (clean_csv to_numeric raw).2 /\
  columns (clean_csv to_numeric raw).2 <= raw_columns raw - 42 /\
  length (data (clean_csv to_numeric raw).2) = length (raw_data raw) - 1 /\
  Forall (Forall (fun v => Qeq_bool v MISSING = false))
         (data (clean_csv to_numeric raw).2).
Proof.
  intros Hrect. unfold clean_csv.
  set (df := map (drop 42) (raw_data raw)).
  set (keep := keep_cols to_numeric (raw_columns raw - 42) (drop 1 df)).
  cbn [fst snd columns data].
  assert (Hk : length keep <= raw_columns raw - 42)
    by apply keep_cols_length.
  split; [|split; [|split; [|split]]].
  - unfold rectangular. cbn [columns data].
    rewrite !Forall_map. apply Forall_drop.
    destruct keep as [|k0 keep'] eqn:Ek.
    + unfold df. rewrite Forall_map.
      eapply Forall_impl; [exact Hrect|]. intros r Hr. simpl.
      rewrite !length_map, length_drop. simpl in Hr. lia.
    + rewrite Forall_map. apply Forall_forall. intros r _. simpl.
      unfold take_columns. now rewrite !length_map.
  - apply new_columns_length.
  - destruct keep; [lia|exact Hk].
  - rewrite !length_map, length_drop.
    destruct keep; unfold df; rewrite ?length_map; reflexivity.
  - rewrite Forall_map. apply Forall_forall. intros r _.
    rewrite Forall_map. apply Forall_forall. intros v _.
    apply replace_missing_present.
Qed.

Lemma cell_at_drop (r : list (option string)) (n i : nat) :
  cell_at (drop n r) i = cell_at r (n + i).
Proof. unfold cell_at. now rewrite lookup_drop. Qed.

(** X13.  Every cell of the cleaned frame comes from one raw cell: row
    [j], column [k] from raw row [j + 1] and raw column [42 + i], where [i]
    is the [k]-th selected position; its value is the number the raw cell
    converts to, or 0 when the raw cell is empty, does not convert or
    converts to the missing-value code.  When some column is numeric, the
    raw cell is empty or converts: no text is turned into 0. *)
Theorem clean_csv_values (raw : RawFrame) (j k : nat) (r : row) (v : Q) :
  raw_rectangular raw ->
  data (clean_csv to_numeric raw).2 !! j = Some r ->
  r !! k = Some v ->
  exists i rr c,
    selected to_numeric raw !! k = Some i /\
    raw_data raw !! (S j) = Some rr /\
    rr !! (42 + i) = Some c /\
    v = replace_missing (coerce to_numeric c) /\
    (keep_cols to_numeric (raw_columns raw - 42)
       (drop 1 (map (drop 42) (raw_data raw))) <> [] ->
     numeric_cell to_numeric c = true).
Proof.
  intros Hrect Hj Hk. unfold clean_csv, selected in *.
  set (df := map (drop 42) (raw_data raw)) in *.
  set (keep := keep_cols to_numeric (raw_columns raw - 42) (drop 1 df)) in *.
  cbn [snd data] in Hj.
  change (map ?f ?l) with (f <$> l) in Hj.
  rewrite !list_lookup_fmap in Hj.
  assert (Hrow : exists rr, raw_data raw !! (S j) = Some rr /\
            r = map replace_missing (map (coerce to_numeric)
                  (match keep with
                   | [] => drop 42 rr
                   | _ => take_columns keep (drop 42 rr)
                   end))).
  { destruct keep as [|k0 keep'] eqn:Ek;
      rewrite lookup_drop in Hj; unfold df in Hj;
      change (map ?f ?l) with (f <$> l) in Hj;
      rewrite ?list_lookup_fmap in Hj;
      replace (1 + j) with (S j) in Hj by lia;
      destruct (raw_data raw !! S j) as [rr|]; try discriminate;
      simpl in Hj; inversion Hj; eauto. }
  destruct Hrow as (rr & Hrr & ->).
  assert (Hlen : length rr = raw_columns raw).
  { unfold raw_rectangular in Hrect. rewrite Forall_lookup in Hrect.
    exact (Hrect (S j) rr Hrr). }
  change (map ?f ?l) with (f <$> l) in Hk.
  rewrite !list_lookup_fmap in Hk.
  destruct keep as [|k0 keep'] eqn:Ek.
  - rewrite lookup_drop in Hk.
    destruct (rr !! (42 + k)) as [c|] eqn:Hc; [|discriminate].
    simpl in Hk. inversion Hk; subst v.
    exists k, rr, c. repeat split; try assumption; try reflexivity.
    + apply lookup_seq_lt. apply lookup_lt_Some in Hc. lia.
    + intros Hne. now contradiction Hne.
  - unfold take_columns in Hk.
    change (map ?f ?l) with (f <$> l) in Hk.
    rewrite list_lookup_fmap in Hk.
    destruct ((k0 :: keep') !! k) as [i|] eqn:Hi; [|discriminate].
    simpl in Hk. inversion Hk; subst v. clear Hk.
    assert (Hin : In i keep).
    { rewrite Ek. apply list_elem_of_In. eapply list_elem_of_lookup_2; eauto. }
    apply keep_cols_bound in Hin. destruct Hin as [Hib Hnum].
    destruct (lookup_lt_is_Some_2 rr (42 + i) ltac:(lia)) as [c Hc].
    assert (Hcell : cell_at (drop 42 rr) i = c).
    { rewrite cell_at_drop. unfold cell_at. now rewrite Hc. }
    exists i, rr, c. rewrite Hcell.
    repeat split; try assumption; try reflexivity.
    intros _. unfold is_numeric_column in Hnum.
    rewrite forallb_forall in Hnum. apply Hnum.
    unfold column_cells. apply in_map_iff. exists (drop 42 rr).
    split; [exact Hcell|].
    apply list_elem_of_In. apply (list_elem_of_lookup_2 _ j).
    rewrite lookup_drop. unfold df.
    change (map ?f ?l) with (f <$> l).
    rewrite list_lookup_fmap. replace (1 + j) with (S j) by lia.
    now rewrite Hrr.
Qed.

End CleanCsvProperties.

Lemma flat_map_axis_lookup (np : nat) :
  forall a k, k < 3 * np ->
    flat_map axis_names (seq a np) !! k =
    Some (match k mod 3 with
          | 0 => "x" +:+ pretty (a + k / 3)
          | 1 => "y" +:+ pretty (a + k / 3)
          | _ => "z" +:+ pretty (a + k / 3)
          end).
Proof.
  induction np as [|np IH]; intros a k Hk; [lia|].
  simpl seq. simpl flat_map.
  destruct k as [|[|[|k]]].
  - simpl. now rewrite Nat.add_0_r.
  - simpl. now rewrite Nat.add_0_r.
  - simpl. now rewrite Nat.add_0_r.
  - change ((_ :: _ :: _ :: flat_map axis_names (seq (S a) np))
             !! S (S (S k)))
      with (flat_map axis_names (seq (S a) np) !! k).
    change (S (S (S k))) with (3 + k).
    rewrite IH by lia.
    replace ((3 + k) mod 3) with (k mod 3)
      by (rewrite <- (Nat.Div0.mod_add k 1 3); f_equal; lia).
    replace ((3 + k) / 3) with (S (k / 3))
      by (replace (3 + k) with (k + 1 * 3) by lia;
          rewrite Nat.div_add by lia; lia).
    replace (a + S (k / 3)) with (S a + k / 3) by lia. reflexivity.
Qed.

Lemma new_columns_lookup (n k : nat) :
  k < n -> new_columns n !! k = Some (name_of k).
Proof.
  intros Hk. unfold new_columns.
  rewrite lookup_take_lt by exact Hk.
  rewrite flat_map_axis_lookup.
  - unfold name_of. replace (1 + k / 3) with (k / 3 + 1) by lia. reflexivity.
  - pose proof (Nat.div_mod_eq n 3) as Hd.
    pose proof (Nat.mod_upper_bound n 3 ltac:(lia)) as Hm.
    destruct (n mod 3 =? 0) eqn:E;
      [apply Nat.eqb_eq in E | apply Nat.eqb_neq in E]; lia.
Qed.

Lemma name_of_inj (k k' : nat) : name_of k = name_of k' -> k = k'.
Proof.
  unfold name_of. intros H.
  pose proof (Nat.div_mod_eq k 3) as Hk.
  pose proof (Nat.div_mod_eq k' 3) as Hk'.
  pose proof (Nat.mod_upper_bound k 3 ltac:(lia)) as Hm.
  pose proof (Nat.mod_upper_bound k' 3 ltac:(lia)) as Hm'.
  remember (k / 3) as d eqn:Ed. remember (k' / 3) as d' eqn:Ed'.
  clear Ed Ed'.
  destruct (k mod 3) as [|[|?]], (k' mod 3) as [|[|?]];
    simpl in H; try discriminate;
    injection H as H; apply pretty_nat_inj in H; lia.
Qed.

Lemma new_columns_find (n k : nat) :
  k < n ->
  list_find (fun name => name = name_of k) (new_columns n)
    = Some (k, name_of k).
Proof.
  intros Hk. apply list_find_Some. split; [now apply new_columns_lookup|].
  split; [reflexivity|].
  intros j y Hj Hlt Hy. subst y.
  rewrite new_columns_lookup in Hj by lia.
  inversion Hj as [Hn]. apply name_of_inj in Hn. lia.
Qed.

(** X11.  The header of a cleaned frame of [n] columns has [n] names; the
    name at position [k] is x, y or z by [k mod 3], followed by
    [k / 3 + 1] in decimal; and no name occurs twice. *)
Theorem new_columns_names (n : nat) :
  length (new_columns n) = n /\
  (forall k, k < n -> new_columns n !! k = Some (name_of k)) /\
  NoDup (new_columns n).
Proof.
  split; [apply new_columns_length|]. split; [apply new_columns_lookup|].
  apply NoDup_alt. intros i j x Hi Hj.
  assert (Hin : i < n).
  { apply lookup_lt_Some in Hi. now rewrite new_columns_length in Hi. }
  assert (Hjn : j < n).
  { apply lookup_lt_Some in Hj. now rewrite new_columns_length in Hj. }
  rewrite new_columns_lookup in Hi, Hj by assumption.
  apply name_of_inj. congruence.
Qed.

Lemma series_get_name (n k : nat) (r : row) (v : Q) :
  k < n -> r !! k = Some v ->
  series_get (new_columns n) r (name_of k) = Done v.
Proof.
  intros Hk Hv. unfold series_get.
  rewrite new_columns_find by exact Hk. now rewrite Hv.
Qed.

Lemma axis_name_of (j : nat) :
  "x" +:+ pretty (S j) = name_of (3 * j) /\
  "y" +:+ pretty (S j) = name_of (3 * j + 1) /\
  "z" +:+ pretty (S j) = name_of (3 * j + 2).
Proof.
  unfold name_of.
  replace ((3 * j) mod 3) with 0
    by (rewrite Nat.mul_comm; now rewrite Nat.Div0.mod_mul).
  replace ((3 * j + 1) mod 3) with 1
    by (rewrite Nat.add_comm, Nat.mul_comm, Nat.Div0.mod_add; reflexivity).
  replace ((3 * j + 2) mod 3) with 2
    by (rewrite Nat.add_comm, Nat.mul_comm, Nat.Div0.mod_add; reflexivity).
  replace ((3 * j) / 3) with j
    by (rewrite Nat.mul_comm; now rewrite Nat.div_mul).
  replace ((3 * j + 1) / 3) with j
    by (rewrite Nat.add_comm, Nat.mul_comm, Nat.div_add by lia; reflexivity).
  replace ((3 * j + 2) / 3) with j
    by (rewrite Nat.add_comm, Nat.mul_comm, Nat.div_add by lia; reflexivity).
  replace (j + 1) with (S j) by lia. auto.
Qed.

Lemma lookup_nth_Q (r : row) (k : nat) :
  k < length r -> r !! k = Some (nth k r 0%Q).
Proof.
  intros H. destruct (lookup_lt_is_Some_2 r k H) as [v Hv].
  rewrite Hv. f_equal. symmetry. now apply nth_lookup_Some.
Qed.

Lemma marker_by_name_step (r : row) (j : nat) (acc : list point) :
  3 * j + 2 < length r ->
  marker_by_name (new_columns (length r)) r (S j) acc =
  Done (acc ++ filter (fun p => is_sentinel p = false) [point_at r j]).
Proof.
  intros H. unfold marker_by_name.
  destruct (axis_name_of j) as (-> & -> & ->).
  rewrite (series_get_name _ (3 * j) r (nth (3 * j) r 0%Q))
    by (try apply lookup_nth_Q; lia).
  rewrite (series_get_name _ (3 * j + 1) r (nth (3 * j + 1) r 0%Q))
    by (try apply lookup_nth_Q; lia).
  rewrite (series_get_name _ (3 * j + 2) r (nth (3 * j + 2) r 0%Q))
    by (try apply lookup_nth_Q; lia).
  cbn [mbind outcome_bind]. fold (point_at r j).
  rewrite filter_cons, filter_nil.
  destruct (is_sentinel (point_at r j)); case_decide; try discriminate;
    try congruence; now rewrite ?app_nil_r.
Qed.

Lemma markers_by_name_loop (r : row) (m : nat) :
  forall a acc,
    3 * (a + m) <= length r ->
    for_each (marker_by_name (new_columns (length r)) r) (seq (S a) m) acc =
    Done (acc ++ filter (fun p => is_sentinel p = false)
                   (map (point_at r) (seq a m))).
Proof.
  induction m as [|m IH]; intros a acc H; simpl.
  - now rewrite filter_nil, app_nil_r.
  - rewrite marker_by_name_step by lia.
    rewrite IH by lia. rewrite <- app_assoc. f_equal. f_equal.
    rewrite (filter_cons _ (point_at r a)).
    rewrite filter_cons, filter_nil.
    destruct (decide (is_sentinel (point_at r a) = false)); reflexivity.
Qed.

Lemma triples_positions (n : nat) :
  forall r, length r < n ->
    triples r = map (point_at r) (seq 0 (length r / 3)).
Proof.
  induction n as [|n IH]; intros r Hn; [lia|].
  destruct r as [|x [|y [|z rest]]]; try reflexivity.
  simpl triples. simpl length.
  replace (S (S (S (length rest))) / 3) with (S (length rest / 3))
    by (replace (S (S (S (length rest)))) with (length rest + 1 * 3) by lia;
        rewrite Nat.div_add by lia; lia).
  simpl seq. rewrite map_cons. f_equal.
  rewrite IH by (simpl in Hn; lia).
  rewrite <- seq_shift, map_map. apply map_ext. intros j.
  unfold point_at.
  replace (3 * S j) with (S (S (S (3 * j)))) by lia. reflexivity.
Qed.

(** X14.  Under the header [clean_csv] writes, the markers [label_markers]
    collects from a row by the names x1, y1, z1, x2, ... are the
    non-sentinel consecutive triples of the row, in order, and no name is
    missing. *)
Theorem markers_by_name_positional (r : row) :
  markers_by_name (new_columns (length r)) r = Done (group_markers r).
Proof.
  unfold markers_by_name. rewrite new_columns_length.
  rewrite markers_by_name_loop.
  - simpl. unfold group_markers.
    now rewrite (triples_positions (S (length r)) r) by lia.
  - pose proof (Nat.div_mod_eq (length r) 3). lia.
Qed.

(** * Choosing the input file *)

Lemma max_from_spec (key : string -> Q) (rest : list string) :
  forall best p,
    max_from key best rest = p ->
    exists l1 l2,
      best :: rest = l1 ++ p :: l2 /\
      Forall (fun g => (key g < key p)%Q) l1 /\
      Forall (fun g => (key g <= key p)%Q) l2.
Proof.
  induction rest as [|x rest IH]; intros best p Hp; simpl in Hp.
  - exists [], []. rewrite Hp. repeat split; constructor.
  - destruct (Qltb (key best) (key x)) eqn:E.
    + apply Qltb_lt in E.
      destruct (IH x p Hp) as (l1 & l2 & Hsplit & H1 & H2).
      exists (best :: l1), l2. split; [simpl; now rewrite <- Hsplit|].
      split; [|exact H2]. constructor; [|exact H1].
      eapply Qlt_le_trans; [exact E|].
      destruct l1 as [|y l1']; simpl in Hsplit;
        injection Hsplit as Hx _.
      * rewrite Hx. apply Qle_refl.
      * rewrite Hx. apply Qlt_le_weak. now inversion H1.
    + assert (Hle : (key x <= key best)%Q).
      { apply Qnot_lt_le. intros Hlt. apply Qltb_lt in Hlt. congruence. }
      destruct (IH best p Hp) as (l1 & l2 & Hsplit & H1 & H2).
      destruct l1 as [|y l1']; simpl in Hsplit;
        injection Hsplit as Hb Hrest.
      * exists [], (x :: l2). simpl. rewrite Hb, Hrest.
        split; [reflexivity|]. split; [constructor|].
        constructor; [now rewrite <- Hb|exact H2].
      * exists (y :: x :: l1'), l2. simpl. rewrite Hb, Hrest.
        split; [reflexivity|]. split; [|exact H2].
        inversion H1 as [|? ? Hy Hl1]; subst.
        constructor; [exact Hy|]. constructor; [|exact Hl1].
        eapply Qle_lt_trans; [exact Hle|exact Hy].
Qed.

Section LatestFileProperties.

Variable listdir : string -> list string.
Variable getmtime : string -> Q.

(** X15.  [get_latest_csv_file] returns nothing exactly when no entry of
    the folder ends in .csv.  Otherwise it returns the path folder/f of a
    listed entry f ending in .csv whose modification time is strictly
    greater than that of every .csv entry listed before it and at least
    that of every .csv entry listed after it. *)
Theorem latest_csv_file (ndi_folder : string) :
  (get_latest_csv_file listdir getmtime ndi_folder = None <->
   forall f, In f (listdir ndi_folder) -> endswith f ".csv" = false) /\
  (forall p,
     get_latest_csv_file listdir getmtime ndi_folder = Some p ->
     exists f earlier later,
       p = ndi_folder +:+ "/" +:+ f /\
       In f (listdir ndi_folder) /\ endswith f ".csv" = true /\
       csv_files listdir ndi_folder = earlier ++ f :: later /\
       Forall (fun g => (getmtime (ndi_folder +:+ "/" +:+ g) < getmtime p)%Q)
              earlier /\
       Forall (fun g => (getmtime (ndi_folder +:+ "/" +:+ g) <= getmtime p)%Q)
              later).
Proof.
  unfold get_latest_csv_file, max_by. split.
  - destruct (csv_files listdir ndi_folder) as [|f0 fs] eqn:Ecsv; simpl.
    + split; [|reflexivity]. intros _ f Hf.
      destruct (endswith f ".csv") eqn:E; [|reflexivity].
      assert (Hin : In f (csv_files listdir ndi_folder)).
      { unfold csv_files. apply List.filter_In. now split. }
      rewrite Ecsv in Hin. contradiction.
    + split; [discriminate|]. intros Hall.
      assert (Hin : In f0 (csv_files listdir ndi_folder))
        by (rewrite Ecsv; now left).
      unfold csv_files in Hin. apply List.filter_In in Hin.
      destruct Hin as [Hin He]. rewrite (Hall f0 Hin) in He. discriminate.
  - intros p Hp.
    destruct (csv_files listdir ndi_folder) as [|f0 fs] eqn:Ecsv;
      simpl in Hp; [discriminate|].
    inversion Hp as [Hmax]. clear Hp.
    destruct (max_from_spec getmtime _ _ p Hmax)
      as (l1 & l2 & Hsplit & H1 & H2).
    change (?a :: map ?f fs) with (map f (f0 :: fs)) in Hsplit.
    apply map_eq_app in Hsplit.
    destruct Hsplit as (earlier & rest & Hfs & He & Hr).
    apply map_eq_cons in Hr.
    destruct Hr as (f & later & -> & Hf & Hl).
    exists f, earlier, later.
    assert (Hin : In f (csv_files listdir ndi_folder)).
    { rewrite Ecsv, Hfs. apply in_or_app. right. now left. }
    unfold csv_files in Hin. apply List.filter_In in Hin.
    destruct Hin as [Hin Hend].
    subst l1 l2. rewrite Forall_map in H1, H2.
    rewrite Hmax. simpl in Hf.
    split; [now symmetry|]. split; [exact Hin|]. split; [exact Hend|].
    split; [exact Hfs|]. split; assumption.
Qed.

End LatestFileProperties.

(** * Instances *)

Lemma labelled_shape_and_density_witness :
  columns three_slots_labelled = 6 /\
  Forall (fun r : row => length r = 6) (data three_slots_labelled) /\
  is_sentinel (1, 1, 2)%Q = false.
Proof.
  destruct (labelled_shape_and_density NDI_MAX_POSITION_CHANGE three_slots
              three_slots_labelled) as (H1 & H2 & H3).
  - repeat constructor.
  - vm_compute. reflexivity.
  - split; [exact H1|]. split; [exact H2|].
    apply (H3 2 marker1); [simpl; lia|reflexivity].
Defined.

Lemma label_markers_failures_witness :
  (columns tangled < 6 /\
   MarkerLostTrack 2 = NotEnoughColumns (columns tangled)) \/
  (exists r, data tangled !! 1 = Some r /\ length (group_markers r) <> 2 /\
             MarkerLostTrack 2 = InitialMarkerCount (length (group_markers r)))
  \/
  (exists idx, 2 <= idx < length (data tangled) /\
               MarkerLostTrack 2 = MarkerLostTrack idx).
Proof.
  apply (label_markers_failures NDI_MAX_POSITION_CHANGE tangled).
  - repeat constructor.
  - vm_compute. reflexivity.
Defined.

Lemma initialization_by_row_one_witness :
  label_markers NDI_MAX_POSITION_CHANGE thin_second
    = Abort (InitialMarkerCount 1).
Proof.
  destruct (initialization_by_row_one NDI_MAX_POSITION_CHANGE thin_second
              [1; 1; 1; 0; 0; 0]%Q) as [H _].
  - simpl. lia.
  - reflexivity.
  - apply H. vm_compute. lia.
Defined.

Lemma separated_tracking_witness :
  label_markers NDI_MAX_POSITION_CHANGE swapped = Done swapped_labelled.
Proof.
  apply (separated_tracking NDI_MAX_POSITION_CHANGE swapped
           [0; 0; 0; 0; 0; 0]%Q [1; 1; 1; 100; 0; 0]%Q
           [[100; 0; 1; 1; 1; 2]; [1; 1; 3; 100; 0; 2]]%Q
           (1, 1, 1)%Q (100, 0, 0)%Q swapped_track).
  - simpl. lia.
  - reflexivity.
  - vm_compute. reflexivity.
  - split; [|split; [|exact I]].
    + split; [right; vm_compute; reflexivity|].
      repeat split; vm_compute; reflexivity.
    + split; [left; vm_compute; reflexivity|].
      repeat split; vm_compute; reflexivity.
Defined.

Lemma fewer_than_two_detections_witness :
  iteration NDI_MAX_POSITION_CHANGE 2 lone_state =
  Done (mkState
          (<[2 := relabel [1; 1; 1; 0; 0; 0]%Q ((1, 1, 1), (1, 1, 1))%Q]>
             (labelled lone_state))
          (mkPrevPos (Some (1, 1, 1)%Q) (Some (1, 1, 1)%Q))).
Proof.
  destruct (fewer_than_two_detections NDI_MAX_POSITION_CHANGE 2 lone_state
              [1; 1; 1; 0; 0; 0]%Q (1, 1, 1)%Q (2, 2, 2)%Q) as [_ H].
  - lia.
  - reflexivity.
  - simpl. lia.
  - reflexivity.
  - rewrite (H (1, 1, 1)%Q) by (vm_compute; reflexivity).
    reflexivity.
Defined.

Lemma gate_must_be_positive_witness :
  label_markers 0 crowded = Abort (MarkerLostTrack 2).
Proof.
  apply (gate_must_be_positive 0 crowded [1; 1; 1; 100; 0; 0]%Q).
  - apply Qle_refl.
  - simpl. lia.
  - simpl. lia.
  - reflexivity.
  - vm_compute. reflexivity.
Defined.

Lemma labelled_points_are_detections_witness :
  length (data three_slots_labelled) = length (data three_slots) /\
  In (100, 0, 1)%Q (group_markers [1; 1; 2; 0; 0; 0; 100; 0; 1]%Q).
Proof.
  destruct (labelled_points_are_detections NDI_MAX_POSITION_CHANGE
              three_slots three_slots_labelled) as [H1 H2].
  - repeat constructor.
  - vm_compute. reflexivity.
  - split; [exact H1|].
    apply (H2 2 _ marker2); [lia|reflexivity|reflexivity].
Defined.

Lemma resampled_column_witness :
  columns drift_resampled = columns drift /\
  column_values drift_resampled 3 =
  map (evaluate hold hold
         (original_time NDI_ORIGINAL_FRAME_RATE (length (data drift)))
         (column_values drift 3))
      (desired_time NDI_DESIRED_FRAME_RATE
         (of_nat (length (data drift) - 1) / NDI_ORIGINAL_FRAME_RATE)).
Proof.
  apply (resampled_column NDI_ORIGINAL_FRAME_RATE NDI_DESIRED_FRAME_RATE
           hold hold drift drift_resampled 3).
  - vm_compute. reflexivity.
  - simpl. lia.
Defined.

Lemma configured_row_count_witness :
  length (data drift_resampled) = (5 * (length (data drift) - 1) + 2) / 3.
Proof.
  apply (configured_row_count hold hold drift drift_resampled).
  - simpl. lia.
  - vm_compute. reflexivity.
Defined.

Lemma labelled_frame_resamples_witness :
  exists out,
    interpolate_data NDI_ORIGINAL_FRAME_RATE NDI_DESIRED_FRAME_RATE
      hold hold drift = Done out /\
    columns out = 6 /\
    length (data out) = (5 * (length (data drift) - 1) + 2) / 3.
Proof.
  destruct (labelled_frame_resamples NDI_MAX_POSITION_CHANGE hold hold
              drift drift) as [_ H].
  - vm_compute. reflexivity.
  - apply H. simpl. lia.
Defined.

Lemma clean_csv_shape_witness :
  rectangular (clean_csv sample_numeric sample_raw).2 /\
  length (clean_csv sample_numeric sample_raw).1
    = columns (clean_csv sample_numeric sample_raw).2 /\
  columns (clean_csv sample_numeric sample_raw).2
    <= raw_columns sample_raw - 42 /\
  length (data (clean_csv sample_numeric sample_raw).2)
    = length (raw_data sample_raw) - 1 /\
  Forall (Forall (fun v => Qeq_bool v MISSING = false))
         (data (clean_csv sample_numeric sample_raw).2).
Proof.
  apply (clean_csv_shape sample_numeric sample_raw).
  repeat constructor.
Defined.

Lemma clean_csv_values_witness :
  exists i rr c,
    selected sample_numeric sample_raw !! 1 = Some i /\
    raw_data sample_raw !! 2 = Some rr /\
    rr !! (42 + i) = Some c /\
    3%Q = replace_missing (coerce sample_numeric c) /\
    (keep_cols sample_numeric (raw_columns sample_raw - 42)
       (drop 1 (map (drop 42) (raw_data sample_raw))) <> [] ->
     numeric_cell sample_numeric c = true).
Proof.
  apply (clean_csv_values sample_numeric sample_raw 1 1 [0; 3]%Q 3%Q).
  - repeat constructor.
  - vm_compute. reflexivity.
  - reflexivity.
Defined.

(** * The actuator link *)

Lemma land_255 (a : Z) : Z.land a 0xFF = (a mod 256)%Z.
Proof. change 0xFF%Z with (Z.ones 8). now rewrite Z.land_ones by lia. Qed.

Lemma land_255_byte (a : Z) : (0 <= Z.land a 0xFF < 256)%Z.
Proof. rewrite land_255. apply Z.mod_pos_bound. lia. Qed.

Lemma byte_values_Forall (l : list Z) :
  byte_values l = true <-> Forall (fun b => (0 <= b < 256)%Z) l.
Proof.
  unfold byte_values. rewrite forallb_forall, Forall_forall.
  split; intros H b Hb.
  - apply list_elem_of_In in Hb. specialize (H b Hb).
    apply andb_true_iff in H. lia.
  - apply list_elem_of_In in Hb. specialize (H b Hb).
    apply andb_true_iff. lia.
Qed.

Lemma byte_values_nth (l : list Z) (i : nat) :
  byte_values l = true -> (0 <= nth i l 0 < 256)%Z.
Proof.
  intros H. apply byte_values_Forall in H.
  destruct (le_lt_dec (length l) i) as [Hge|Hlt].
  - rewrite nth_overflow by exact Hge. lia.
  - rewrite Forall_forall in H. apply H.
    apply list_elem_of_In. now apply nth_In.
Qed.

(** Two bytes, low first, hold any value below 65536. *)
Lemma two_bytes_roundtrip (v : Z) :
  (0 <= v < 65536)%Z ->
  (Z.land v 0xFF + Z.shiftl (Z.land (Z.shiftr v 8) 0xFF) 8)%Z = v.
Proof.
  intros H. rewrite !land_255, Z.shiftr_div_pow2, Z.shiftl_mul_pow2 by lia.
  change (2 ^ 8)%Z with 256%Z.
  rewrite (Z.mod_small (v / 256) 256)
    by (split; [apply Z.div_pos; lia | apply Z.div_lt_upper_bound; lia]).
  pose proof (Z.div_mod v 256 ltac:(lia)). lia.
Qed.

(** X16. [_parse_2_byte_response] returns nothing exactly when the response
    is shorter than [offset + 2] bytes; otherwise, on a response made of
    bytes, it returns the byte at [offset] plus 256 times the next one, a
    value from 0 to 65535: an unsigned 16-bit number, low byte first. *)
Theorem parse_two_bytes (response_bytes : list Z) (offset : nat) :
  (_parse_2_byte_response response_bytes offset = None <->
   length response_bytes < offset + 2) /\
  (forall v,
     byte_values response_bytes = true ->
     _parse_2_byte_response response_bytes offset = Some v ->
     (0 <= v < 65536)%Z /\
     v = (nth offset response_bytes 0
          + 256 * nth (offset + 1) response_bytes 0)%Z).
Proof.
  unfold _parse_2_byte_response. split.
  - destruct response_bytes as [|b bs]; [simpl; split; [lia|reflexivity]|].
    destruct (offset + 2 <=? length (b :: bs)) eqn:E.
    + apply Nat.leb_le in E. split; [discriminate|lia].
    + apply Nat.leb_gt in E. split; [intros _; exact E|reflexivity].
  - intros v Hb Hv.
    destruct response_bytes as [|b bs] eqn:Er; [discriminate|].
    rewrite <- Er in *. clear Er.
    destruct (offset + 2 <=? length response_bytes); [|discriminate].
    injection Hv as <-.
    pose proof (byte_values_nth response_bytes offset Hb) as H1.
    pose proof (byte_values_nth response_bytes (offset + 1) Hb) as H2.
    rewrite Z.shiftl_mul_pow2 by lia. change (2 ^ 8)%Z with 256%Z. lia.
Qed.

Lemma parse_at_7 (response : list Z) :
  8 < length response ->
  _parse_2_byte_response response 7 =
  Some (nth 7 response 0 + Z.shiftl (nth 8 response 0) 8)%Z.
Proof.
  intros H. unfold _parse_2_byte_response.
  destruct response as [|b bs]; [simpl in H; lia|].
  destruct (7 + 2 <=? length (b :: bs)) eqn:E; [reflexivity|].
  apply Nat.leb_gt in E. lia.
Qed.

Lemma write_open (port : Port) (frame : list Z) :
  is_open port = true -> byte_values frame = true ->
  write (Some port) frame =
  Some (mkPort true (written port ++ [frame]) (incoming port)).
Proof. intros Ho Hb. unfold write. now rewrite Hb, Ho. Qed.

Lemma write_refused (ser : option Port) (frame : list Z) :
  ser = None \/ (exists port, ser = Some port /\ is_open port = false)
  \/ byte_values frame = false ->
  write ser frame = None.
Proof.
  intros [-> | [(port & -> & Hc) | Hb]]; unfold write; try reflexivity.
  - rewrite Hc. now destruct (byte_values frame).
  - destruct ser; [|reflexivity]. now rewrite Hb.
Qed.

(** X17. On an open port, for an actuator number that is a byte,
    [get_actual_position] and [get_actual_force] write one nine-byte request
    (command 0x31, register 0x2A or 0x2C, two bytes asked for, checksum
    last), take the next block the port received, and return exactly what
    [_parse_2_byte_response] makes of that block at offset 7.  The checks
    of the header and of the echoed actuator and command therefore change
    nothing: a block of nine bytes or more is decoded whatever it starts
    with. *)
Theorem reads_ignore_validation (port : Port) (actuator_id : Z) :
  is_open port = true ->
  (0 <= actuator_id < 256)%Z ->
  get_actual_position (Some port) actuator_id =
    (_parse_2_byte_response (hd [] (incoming port)) 7,
     Some (mkPort true
             (written port ++
              [[0x55; 0xAA; 5; actuator_id; 0x31; 0x2A; 0; 2;
                Z.land (actuator_id + 98) 0xFF]%Z])
             (tl (incoming port)))) /\
  get_actual_force (Some port) actuator_id =
    (_parse_2_byte_response (hd [] (incoming port)) 7,
     Some (mkPort true
             (written port ++
              [[0x55; 0xAA; 5; actuator_id; 0x31; 0x2C; 0; 2;
                Z.land (actuator_id + 100) 0xFF]%Z])
             (tl (incoming port)))).
Proof.
  intros Ho Hid.
  assert (Hcs : forall k, byte_values
            [0x55; 0xAA; 5; actuator_id; 0x31; k; 0; 2;
             Z.land (actuator_id + (5 + 0x31 + k + 2)) 0xFF]%Z = true
            <-> (0 <= k < 256)%Z).
  { intros k. pose proof (land_255_byte (actuator_id + (5 + 0x31 + k + 2))).
    unfold byte_values. simpl. rewrite !andb_true_iff.
    rewrite !Z.leb_le, !Z.ltb_lt. lia. }
  split.
  - unfold get_actual_position, REG_actualLocation, sum.
    cbn [app length Z.of_nat Pos.of_succ_nat Pos.succ drop fold_left].
    change (Z.of_nat 5) with 5%Z.
    change (Z.land 42 255) with 42%Z.
    change (Z.land (Z.shiftr 42 8) 255) with 0%Z.
    replace (0 + 5 + actuator_id + 49 + 42 + 0 + 2)%Z
      with (actuator_id + 98)%Z by lia.
    rewrite write_open; [|exact Ho|apply (proj2 (Hcs 42%Z)); lia].
    unfold read_all. cbn [incoming written is_open].
    destruct (incoming port) as [|response rest]; [reflexivity|].
    cbn [hd tl]. destruct response as [|b bs] eqn:Er; [reflexivity|].
    rewrite <- Er.
    destruct (8 <? length response) eqn:E8;
      [apply Nat.ltb_lt in E8 | reflexivity].
    rewrite (parse_at_7 response E8). cbn [andb].
    destruct ((nth 0 response 0 =? 85)%Z && (nth 1 response 0 =? 170)%Z);
      [|reflexivity].
    destruct ((nth 3 response 0 =? actuator_id)%Z
              && (nth 4 response 0 =? 49)%Z); reflexivity.
  - unfold get_actual_force, REG_actualForce, sum.
    cbn [app length Z.of_nat Pos.of_succ_nat Pos.succ drop fold_left].
    change (Z.of_nat 5) with 5%Z.
    change (Z.land 44 255) with 44%Z.
    change (Z.land (Z.shiftr 44 8) 255) with 0%Z.
    replace (0 + 5 + actuator_id + 49 + 44 + 0 + 2)%Z
      with (actuator_id + 100)%Z by lia.
    rewrite write_open; [|exact Ho|apply (proj2 (Hcs 44%Z)); lia].
    unfold read_all. cbn [incoming written is_open].
    destruct (incoming port) as [|response rest]; [reflexivity|].
    cbn [hd tl]. destruct response as [|b bs] eqn:Er; [reflexivity|].
    rewrite <- Er.
    destruct (8 <? length response) eqn:E8;
      [apply Nat.ltb_lt in E8 | reflexivity].
    rewrite (parse_at_7 response E8). cbn [andb].
    destruct ((nth 0 response 0 =? 85)%Z && (nth 1 response 0 =? 170)%Z);
      [|reflexivity].
    destruct ((nth 3 response 0 =? actuator_id)%Z
              && (nth 4 response 0 =? 49)%Z); reflexivity.
Qed.

Lemma sum_cons (a : Z) (l : list Z) : sum (a :: l) = (a + sum l)%Z.
Proof.
  unfold sum. simpl.
  assert (H : forall l acc, fold_left Z.add l acc = (acc + fold_left Z.add l 0)%Z).
  { clear. induction l as [|b l IH]; intros acc; simpl; [lia|].
    rewrite (IH (acc + b)%Z), (IH (0 + b)%Z). lia. }
  rewrite H. lia.
Qed.

Lemma byte_values_app (l1 l2 : list Z) :
  byte_values (l1 ++ l2) = byte_values l1 && byte_values l2.
Proof. unfold byte_values. apply forallb_app. Qed.

Lemma sum_app_single (l : list Z) (a : Z) : sum (l ++ [a]) = (sum l + a)%Z.
Proof.
  induction l as [|b l IH]; [unfold sum; simpl; lia|].
  simpl app. rewrite !sum_cons, IH. lia.
Qed.

Lemma send_write (port : Port) (actuator_id register_address : Z)
    (data : list Z) :
  is_open port = true ->
  send_command_and_parse_response (Some port) actuator_id 0x32
    register_address (Some data) =
  if byte_values (write_frame actuator_id register_address data)
  then (answer (hd [] (incoming port)),
        Some (mkPort true
                (written port
                 ++ [write_frame actuator_id register_address data])
                (tl (incoming port))))
  else (None, Some port).
Proof.
  intros Ho. unfold send_command_and_parse_response.
  rewrite Ho. cbn [negb]. unfold command_frame.
  change (0x32 =? 0x30)%Z with false. change (0x32 =? 0x32)%Z with true.
  cbv zeta. change (default [] (Some data)) with data. cbv iota.
  match goal with |- context [write (Some port) ?f] =>
    replace f with (write_frame actuator_id register_address data)
  end.
  2:{ unfold write_frame. rewrite length_app.
      cbn [app drop length]. rewrite !sum_cons.
      do 8 f_equal. f_equal. f_equal. lia. }
  destruct (byte_values (write_frame actuator_id register_address data))
    eqn:Hb.
  - rewrite write_open by assumption. unfold read_all.
    cbn [incoming written is_open].
    unfold answer. destruct (incoming port) as [|[|b bs] rest]; reflexivity.
  - rewrite write_refused by (right; right; exact Hb). reflexivity.
Qed.

Lemma write_frame_bytes (actuator_id register_address : Z) (data : list Z) :
  byte_values (write_frame actuator_id register_address data) = true <->
  (0 <= actuator_id < 256)%Z /\ byte_values data = true /\
  length data <= 251.
Proof.
  unfold write_frame. rewrite !byte_values_app.
  pose proof (land_255_byte register_address) as H1.
  pose proof (land_255_byte (Z.shiftr register_address 8)) as H2.
  match goal with |- context [[Z.land (?a + sum data) 255]] =>
    pose proof (land_255_byte (a + sum data)) as H3
  end.
  unfold byte_values at 1 3. cbn [forallb].
  rewrite !andb_true_iff, !Z.leb_le, !Z.ltb_lt.
  destruct (byte_values data); lia.
Qed.


Lemma send_read (port : Port) (actuator_id register_address : Z)
    (data_bytes : option (list Z)) :
  is_open port = true ->
  (0 <= actuator_id < 256)%Z ->
  send_command_and_parse_response (Some port) actuator_id 0x30
    register_address data_bytes =
  (answer (hd [] (incoming port)),
   Some (mkPort true
           (written port ++ [read_frame actuator_id register_address])
           (tl (incoming port)))).
Proof.
  intros Ho Hid. unfold send_command_and_parse_response.
  rewrite Ho. cbn [negb]. unfold command_frame.
  change (0x30 =? 0x30)%Z with true. cbv zeta iota.
  cbn [app drop length Z.of_nat Pos.of_succ_nat Pos.succ].
  change (Z.of_nat 5 - 1)%Z with 4%Z.
  rewrite !sum_cons. change (sum []) with 0%Z.
  match goal with |- context [write (Some port) ?f] =>
    replace f with (read_frame actuator_id register_address)
  end.
  2:{ unfold read_frame. do 7 f_equal. f_equal. f_equal. lia. }
  rewrite write_open; [|exact Ho|].
  - unfold read_all. cbn [incoming written is_open].
    unfold answer. destruct (incoming port) as [|[|b bs] rest]; reflexivity.
  - unfold read_frame, byte_values. cbn [forallb].
    pose proof (land_255_byte register_address).
    pose proof (land_255_byte (Z.shiftr register_address 8)).
    match goal with |- context [(Z.land (?a + ?b) 255 <? 256)%Z] =>
      pose proof (land_255_byte (a + b))
    end.
    rewrite !andb_true_iff, !Z.leb_le, !Z.ltb_lt. lia.
Qed.

Lemma send_closed (ser : option Port)
    (actuator_id command_type register_address : Z)
    (data_bytes : option (list Z)) :
  ser = None \/ (exists port, ser = Some port /\ is_open port = false) ->
  send_command_and_parse_response ser actuator_id command_type
    register_address data_bytes = (None, ser).
Proof.
  intros [-> | (port & -> & Hc)]; [reflexivity|].
  unfold send_command_and_parse_response. now rewrite Hc.
Qed.

Lemma send_write_refused (ser : option Port)
    (actuator_id register_address : Z) (data : list Z) :
  byte_values (write_frame actuator_id register_address data) = false ->
  send_command_and_parse_response ser actuator_id 0x32 register_address
    (Some data) = (None, ser).
Proof.
  intros Hb. destruct ser as [port|]; [|reflexivity].
  destruct (is_open port) eqn:Ho.
  - rewrite send_write by exact Ho. now rewrite Hb.
  - apply send_closed. right. now exists port.
Qed.

(** X18. A write command (type 0x32) on an open port puts one frame on the
    line: header 0x55 0xAA, the count of bytes that follow up to the
    checksum, actuator, command, register address low byte first, the data,
    and the low byte of the sum of everything after the header; it then
    returns the next block received, or nothing when none came.  The frame
    goes out exactly when the actuator number and every data item are bytes
    and there are at most 251 data items; otherwise nothing is written,
    nothing is read, and the call returns nothing. *)
Theorem write_command (port : Port) (actuator_id register_address : Z)
    (data : list Z) :
  is_open port = true ->
  (byte_values (write_frame actuator_id register_address data) = true <->
   (0 <= actuator_id < 256)%Z /\ byte_values data = true /\
   length data <= 251) /\
  send_command_and_parse_response (Some port) actuator_id 0x32
    register_address (Some data) =
  if byte_values (write_frame actuator_id register_address data)
  then (answer (hd [] (incoming port)),
        Some (mkPort true
                (written port
                 ++ [write_frame actuator_id register_address data])
                (tl (incoming port))))
  else (None, Some port).
Proof.
  intros Ho. split; [apply write_frame_bytes|now apply send_write].
Qed.

(** X19. A read command (type 0x30) on an open port, for an actuator number
    that is a byte, writes an eight-byte frame with length byte 4 whatever
    data was passed along, and returns the next block received; a command
    type other than 0x30 and 0x32 writes and reads nothing. *)
Theorem read_command (port : Port)
    (actuator_id command_type register_address : Z)
    (data_bytes : option (list Z)) :
  is_open port = true ->
  (0 <= actuator_id < 256)%Z ->
  send_command_and_parse_response (Some port) actuator_id 0x30
    register_address data_bytes =
  (answer (hd [] (incoming port)),
   Some (mkPort true
           (written port ++ [read_frame actuator_id register_address])
           (tl (incoming port)))) /\
  length (read_frame actuator_id register_address) = 8 /\
  (command_type <> 0x30%Z -> command_type <> 0x32%Z ->
   send_command_and_parse_response (Some port) actuator_id command_type
     register_address data_bytes = (None, Some port)).
Proof.
  intros Ho Hid. split; [now apply send_read|]. split; [reflexivity|].
  intros H0 H2. unfold send_command_and_parse_response, command_frame.
  rewrite Ho. cbn [negb].
  destruct (Z.eqb_spec command_type 0x30); [contradiction|].
  destruct (Z.eqb_spec command_type 0x32); [contradiction|].
  reflexivity.
Qed.

Lemma read_request_refused (ser : option Port) (actuator_id : Z) :
  ser = None \/ (exists port, ser = Some port /\ is_open port = false)
  \/ ~ (0 <= actuator_id < 256)%Z ->
  get_actual_position ser actuator_id = (None, ser) /\
  get_actual_force ser actuator_id = (None, ser).
Proof.
  intros H. unfold get_actual_position, get_actual_force.
  cbv zeta. split.
  - rewrite write_refused; [reflexivity|].
    destruct H as [H | [H | H]]; [now left | now right; left | right; right].
    cbn [app]. unfold byte_values. cbn [forallb].
    apply andb_false_iff. right. apply andb_false_iff. right.
    apply andb_false_iff. right. apply andb_false_iff. left.
    destruct (Z.leb_spec 0 actuator_id), (Z.ltb_spec actuator_id 256);
      try reflexivity; lia.
  - rewrite write_refused; [reflexivity|].
    destruct H as [H | [H | H]]; [now left | now right; left | right; right].
    cbn [app]. unfold byte_values. cbn [forallb].
    apply andb_false_iff. right. apply andb_false_iff. right.
    apply andb_false_iff. right. apply andb_false_iff. left.
    destruct (Z.leb_spec 0 actuator_id), (Z.ltb_spec actuator_id 256);
      try reflexivity; lia.
Qed.

(** X20. With no port object, with a closed port, or with an actuator
    number that is not a byte, nothing goes on the line and nothing is
    read: [get_actual_position] and [get_actual_force] return nothing, a
    write command returns nothing, and [set_target_position], when
    [inspire_LASF] has no [position], reports failure; the port is left as
    it was. *)
Theorem nothing_sent (ser : option Port)
    (actuator_id register_address position_value : Z) (data : list Z) :
  ser = None \/ (exists port, ser = Some port /\ is_open port = false)
  \/ ~ (0 <= actuator_id < 256)%Z ->
  get_actual_position ser actuator_id = (None, ser) /\
  get_actual_force ser actuator_id = (None, ser) /\
  send_command_and_parse_response ser actuator_id 0x32 register_address
    (Some data) = (None, ser) /\
  set_target_position (Some (mkLASF None)) ser actuator_id position_value
  = (Returns false, ser).
Proof.
  intros H.
  assert (Hs : forall register_address data,
            send_command_and_parse_response ser actuator_id 0x32
              register_address (Some data) = (None, ser)).
  { intros a d. destruct H as [H | [H | H]].
    - apply send_closed. now left.
    - apply send_closed. now right.
    - apply send_write_refused.
      destruct (byte_values (write_frame actuator_id a d)) eqn:Hb;
        [|reflexivity].
      apply write_frame_bytes in Hb. tauto. }
  destruct (read_request_refused ser actuator_id H) as [Hp Hf].
  split; [exact Hp|]. split; [exact Hf|]. split; [apply Hs|].
  unfold set_target_position. cbn [position]. cbv zeta.
  rewrite Hs. rewrite Hs. reflexivity.
Qed.


(** X22. When [inspire_LASF] has no [position], [set_target_position] on
    an open port, for an actuator number that is a byte, sends two write
    commands: zeros to the control-mode register 0x25, then the clamped
    position to the target register 0x29.  It consumes two blocks of
    received bytes and reports success exactly when the second is not
    empty, whatever the first was.  The position frame, read back at
    offset 7 by [_parse_2_byte_response], gives the clamped position:
    the two data bytes lose nothing. *)
Theorem target_position_frames (port : Port)
    (actuator_id position_value : Z) :
  is_open port = true ->
  (0 <= actuator_id < 256)%Z ->
  let clamped := Z.max MIN_POSITION (Z.min MAX_POSITION position_value) in
  let position_frame :=
    write_frame actuator_id REG_targetLocation
      [Z.land clamped 0xFF; Z.land (Z.shiftr clamped 8) 0xFF] in
  set_target_position (Some (mkLASF None)) (Some port) actuator_id
    position_value
  = (Returns (bool_decide (hd [] (tl (incoming port)) <> [])),
     Some (mkPort true
             (written port ++
              [write_frame actuator_id REG_controlModel [0; 0]%Z;
               position_frame])
             (tl (tl (incoming port))))) /\
  length position_frame = 10 /\
  _parse_2_byte_response position_frame 7 = Some clamped.
Proof.
  intros Ho Hid. cbv zeta.
  set (c := Z.max MIN_POSITION (Z.min MAX_POSITION position_value)).
  assert (Hc : (0 <= c <= 2000)%Z)
    by (unfold c, MIN_POSITION, MAX_POSITION; lia).
  set (data := [Z.land c 255; Z.land (Z.shiftr c 8) 255]).
  assert (Hd : byte_values data = true).
  { unfold data, byte_values. cbn [forallb].
    pose proof (land_255_byte c). pose proof (land_255_byte (Z.shiftr c 8)).
    rewrite !andb_true_iff, !Z.leb_le, !Z.ltb_lt. lia. }
  split; [|split].
  - unfold set_target_position. cbn [position]. fold c. fold data.
    cbv zeta.
    rewrite send_write by exact Ho.
    rewrite (proj2 (write_frame_bytes actuator_id REG_controlModel [0; 0]%Z))
      by (split; [lia|split; [reflexivity|cbn [length]; lia]]).
    rewrite send_write by reflexivity.
    rewrite (proj2 (write_frame_bytes actuator_id REG_targetLocation data))
      by (split; [lia|split; [exact Hd|unfold data; cbn [length]; lia]]).
    cbn [written incoming]. rewrite <- app_assoc. cbn [app].
    f_equal. f_equal. unfold answer.
    destruct (hd [] (tl (incoming port))) as [|b bs].
    + rewrite bool_decide_eq_false_2; [reflexivity|].
      intros [x Hx]. discriminate.
    + rewrite bool_decide_eq_true_2 by (now eexists).
      symmetry. apply bool_decide_eq_true_2. discriminate.
  - reflexivity.
  - unfold write_frame, data. cbn [app length].
    unfold _parse_2_byte_response. cbn [length Nat.leb Nat.add nth].
    f_equal. apply two_bytes_roundtrip. lia.
Qed.

(** ** Instances for the actuator link *)

Lemma parse_two_bytes_witness :
  byte_values [0; 0; 0; 0; 0; 0; 0; 0xF4; 0x01]%Z = true /\
  _parse_2_byte_response [0; 0; 0; 0; 0; 0; 0; 0xF4; 0x01]%Z 7 = Some 500%Z /\
  (0 <= 500 < 65536)%Z /\
  500%Z = (nth 7 [0; 0; 0; 0; 0; 0; 0; 0xF4; 0x01] 0
           + 256 * nth (7 + 1) [0; 0; 0; 0; 0; 0; 0; 0xF4; 0x01] 0)%Z.
Proof.
  split; [reflexivity|]. split; [reflexivity|].
  apply (proj2 (parse_two_bytes [0; 0; 0; 0; 0; 0; 0; 0xF4; 0x01]%Z 7));
    reflexivity.
Defined.

Lemma reads_ignore_validation_witness :
  is_open answering = true /\ (0 <= 3 < 256)%Z /\
  get_actual_position (Some answering) 3 =
    (Some 500%Z,
     Some (mkPort true [[0x55; 0xAA; 5; 3; 0x31; 0x2A; 0; 2; 101]%Z]
             [[0x55; 0xAA]%Z])) /\
  get_actual_force (Some answering) 3 =
    (Some 500%Z,
     Some (mkPort true [[0x55; 0xAA; 5; 3; 0x31; 0x2C; 0; 2; 103]%Z]
             [[0x55; 0xAA]%Z])).
Proof.
  split; [reflexivity|]. split; [lia|].
  apply (reads_ignore_validation answering 3); [reflexivity|lia].
Defined.

Lemma write_command_witness :
  is_open answering = true /\
  send_command_and_parse_response (Some answering) 3 0x32 REG_targetLocation
    (Some [0xF4; 0x01]%Z) =
  (Some [0; 0; 0; 0; 0; 0; 0; 0xF4; 0x01]%Z,
   Some (mkPort true [[0x55; 0xAA; 6; 3; 0x32; 0x29; 0; 0xF4; 0x01; 0x59]%Z]
           [[0x55; 0xAA]%Z])).
Proof.
  split; [reflexivity|].
  exact (proj2 (write_command answering 3 REG_targetLocation
                  [0xF4; 0x01]%Z eq_refl)).
Defined.

Lemma read_command_witness :
  is_open silent = true /\ (0 <= 4 < 256)%Z /\
  send_command_and_parse_response (Some silent) 4 0x30 REG_actualForce None
  = (None, Some (mkPort true [[0x55; 0xAA; 4; 4; 0x30; 0x2C; 0; 0x64]%Z] []))
  /\ send_command_and_parse_response (Some silent) 4 0x31 REG_actualForce None
  = (None, Some silent).
Proof.
  split; [reflexivity|]. split; [lia|].
  destruct (read_command silent 4 0x31 REG_actualForce None eq_refl
              ltac:(lia)) as (H1 & _ & H2).
  split; [exact H1|]. apply H2; discriminate.
Defined.

Lemma nothing_sent_witness :
  (exists port, Some closed = Some port /\ is_open port = false) /\
  get_actual_position (Some closed) 3 = (None, Some closed) /\
  get_actual_force (Some closed) 3 = (None, Some closed) /\
  send_command_and_parse_response (Some closed) 3 0x32 REG_targetLocation
    (Some [0xF4; 0x01]%Z) = (None, Some closed) /\
  set_target_position (Some (mkLASF None)) (Some closed) 3 500
  = (Returns false, Some closed).
Proof.
  assert (H : exists port, Some closed = Some port /\ is_open port = false)
    by (exists closed; split; reflexivity).
  split; [exact H|].
  apply (nothing_sent (Some closed) 3 REG_targetLocation 500
           [0xF4; 0x01]%Z).
  right. left. exact H.
Defined.


Lemma target_position_frames_witness :
  is_open answering = true /\ (0 <= 3 < 256)%Z /\
  set_target_position (Some (mkLASF None)) (Some answering) 3 2500
  = (Returns true,
     Some (mkPort true
             [[0x55; 0xAA; 6; 3; 0x32; 0x25; 0; 0; 0; 0x60]%Z;
              [0x55; 0xAA; 6; 3; 0x32; 0x29; 0; 0xD0; 0x07; 0x3B]%Z]
             [])) /\
  _parse_2_byte_response
    [0x55; 0xAA; 6; 3; 0x32; 0x29; 0; 0xD0; 0x07; 0x3B]%Z 7 = Some 2000%Z.
Proof.
  split; [reflexivity|]. split; [lia|].
  destruct (target_position_frames answering 3 2500 eq_refl ltac:(lia))
    as (H1 & _ & H3).
  split; [exact H1|exact H3].
Defined.

(** * The actuator log *)

Lemma pairs_lookup {A B : Type} (f g : A -> B) (l : list A) (k : nat) :
  flat_map (fun a => [f a; g a]) l !! (2 * k) = f <$> l !! k /\
  flat_map (fun a => [f a; g a]) l !! (2 * k + 1) = g <$> l !! k.
Proof.
  revert k. induction l as [|a l IH]; intros k; [now destruct k|].
  destruct k as [|k]; [split; reflexivity|].
  replace (2 * S k) with (S (S (2 * k))) by lia.
  cbn [flat_map app Nat.add]. simpl lookup. apply IH.
Qed.

Lemma pairs_length {A B : Type} (f g : A -> B) (l : list A) :
  length (flat_map (fun a => [f a; g a]) l) = 2 * length l.
Proof. induction l as [|a l IH]; simpl; [reflexivity|]. rewrite IH. lia. Qed.

Lemma header_flat (ids : list Z) :
  header ids =
  "timestamp" ::
  flat_map (fun act_id => ["actuator_" +:+ pretty act_id +:+ "_pos";
                           "actuator_" +:+ pretty act_id +:+ "_force"]) ids.
Proof.
  unfold header.
  assert (H : forall init,
            fold_left
              (fun header act_id =>
                 header ++ ["actuator_" +:+ pretty act_id +:+ "_pos";
                            "actuator_" +:+ pretty act_id +:+ "_force"])
              ids init =
            init ++ flat_map
                      (fun act_id =>
                         ["actuator_" +:+ pretty act_id +:+ "_pos";
                          "actuator_" +:+ pretty act_id +:+ "_force"]) ids).
  { induction ids as [|a ids IH]; intros init; simpl.
    - now rewrite app_nil_r.
    - rewrite IH, <- app_assoc. reflexivity. }
  apply (H ["timestamp"]).
Qed.

Lemma read_requests (port : Port) (actuator_id : Z) :
  is_open port = true ->
  (0 <= actuator_id < 256)%Z ->
  get_actual_position (Some port) actuator_id =
    (_parse_2_byte_response (hd [] (incoming port)) 7,
     Some (mkPort true
             (written port ++ [request_frame actuator_id REG_actualLocation])
             (tl (incoming port)))) /\
  get_actual_force (Some port) actuator_id =
    (_parse_2_byte_response (hd [] (incoming port)) 7,
     Some (mkPort true
             (written port ++ [request_frame actuator_id REG_actualForce])
             (tl (incoming port)))).
Proof.
  intros Ho Hid.
  assert (Hb : forall k, (0 <= k < 256)%Z ->
            byte_values (request_frame actuator_id k) = true).
  { intros k Hk. unfold request_frame, byte_values. cbn [forallb].
    match goal with |- context [(Z.land ?a 255 <? 256)%Z] =>
      pose proof (land_255_byte a)
    end.
    rewrite !andb_true_iff, !Z.leb_le, !Z.ltb_lt. lia. }
  assert (Hparse : forall response : list Z,
            match response with
            | [] => (None : option Z)
            | _ =>
                if (8 <? length response)
                   && (nth 0 response 0 =? 0x55)%Z
                   && (nth 1 response 0 =? 0xAA)%Z
                then
                  if (nth 3 response 0 =? actuator_id)%Z
                     && (nth 4 response 0 =? 0x31)%Z
                  then Some (nth 7 response 0
                             + Z.shiftl (nth 8 response 0) 8)%Z
                  else _parse_2_byte_response response 7
                else _parse_2_byte_response response 7
            end = _parse_2_byte_response response 7).
  { intros response. destruct response as [|b bs] eqn:Er; [reflexivity|].
    rewrite <- Er.
    destruct (8 <? length response) eqn:E8;
      [apply Nat.ltb_lt in E8 | reflexivity].
    rewrite (parse_at_7 response E8). cbn [andb].
    destruct ((nth 0 response 0 =? 85)%Z && (nth 1 response 0 =? 170)%Z);
      [|reflexivity].
    destruct ((nth 3 response 0 =? actuator_id)%Z
              && (nth 4 response 0 =? 49)%Z); reflexivity. }
  split.
  - unfold get_actual_position. cbv zeta.
    match goal with |- context [write (Some port) ?f] =>
      replace f with (request_frame actuator_id REG_actualLocation)
    end.
    2:{ unfold request_frame, REG_actualLocation.
        cbn [app length drop]. rewrite !sum_cons.
        change (Z.of_nat 5) with 5%Z. change (Z.land 42 255) with 42%Z.
        change (Z.land (Z.shiftr 42 8) 255) with 0%Z.
        change (sum []) with 0%Z. do 8 f_equal. do 2 f_equal. lia. }
    rewrite write_open; [|exact Ho|apply Hb; unfold REG_actualLocation; lia].
    unfold read_all. cbn [incoming written is_open].
    rewrite <- (Hparse (hd [] (incoming port))).
    destruct (hd [] (incoming port)) as [|b bs]; [reflexivity|].
    destruct (_ && _ && _); [destruct (_ && _)|]; reflexivity.
  - unfold get_actual_force. cbv zeta.
    match goal with |- context [write (Some port) ?f] =>
      replace f with (request_frame actuator_id REG_actualForce)
    end.
    2:{ unfold request_frame, REG_actualForce.
        cbn [app length drop]. rewrite !sum_cons.
        change (Z.of_nat 5) with 5%Z. change (Z.land 44 255) with 44%Z.
        change (Z.land (Z.shiftr 44 8) 255) with 0%Z.
        change (sum []) with 0%Z. do 8 f_equal. do 2 f_equal. lia. }
    rewrite write_open; [|exact Ho|apply Hb; unfold REG_actualForce; lia].
    unfold read_all. cbn [incoming written is_open].
    rewrite <- (Hparse (hd [] (incoming port))).
    destruct (hd [] (incoming port)) as [|b bs]; [reflexivity|].
    destruct (_ && _ && _); [destruct (_ && _)|]; reflexivity.
Qed.

Lemma nth_tl_tl {A : Type} (l : list A) (d : A) (j : nat) :
  nth j (tl (tl l)) d = nth (S (S j)) l d.
Proof. destruct l as [|a [|b l]]; destruct j; reflexivity. Qed.

Lemma log_loop_open (ids : list Z) :
  Forall (fun act_id => (0 <= act_id < 256)%Z) ids ->
  forall (row : list field) (port : Port),
    is_open port = true ->
    fold_left
      (fun '(log_row, ser) act_id =>
         let '(pos, ser) := get_actual_position ser act_id in
         let '(force, ser) := get_actual_force ser act_id in
         (log_row ++ [or_na pos; or_na force], ser))
      ids (row, Some port) =
    (row ++ map (fun j => or_na (_parse_2_byte_response
                                   (nth j (incoming port) []) 7))
              (seq 0 (2 * length ids)),
     Some (mkPort true
             (written port ++
              flat_map (fun act_id =>
                          [request_frame act_id REG_actualLocation;
                           request_frame act_id REG_actualForce]) ids)
             (drop (2 * length ids) (incoming port)))).
Proof.
  induction 1 as [|a ids Ha Hids IH]; intros row port Ho.
  - simpl. rewrite !app_nil_r, drop_0. destruct port as [o w i].
    simpl in Ho. now subst o.
  - cbn [fold_left].
    destruct (read_requests port a Ho Ha) as [Hp _]. rewrite Hp. clear Hp.
    match goal with |- context [get_actual_force (Some ?p) a] =>
      destruct (read_requests p a eq_refl Ha) as [_ Hf]; rewrite Hf; clear Hf
    end.
    cbn [written incoming]. rewrite IH by reflexivity.
    cbn [written incoming length flat_map].
    replace (2 * S (length ids)) with (S (S (2 * length ids))) by lia.
    f_equal.
    + rewrite <- app_assoc. f_equal. cbn [seq map app].
      f_equal; [now destruct (incoming port)|].
      f_equal; [now destruct (incoming port) as [|r1 [|r2 rest]]|].
      rewrite <- !seq_shift, !map_map. apply map_ext.
      intros j. now rewrite nth_tl_tl.
    + f_equal. rewrite <- !app_assoc. cbn [app]. f_equal.
      destruct (incoming port) as [|r1 [|r2 rest]]; simpl;
        rewrite ?drop_nil; reflexivity.
Qed.

Lemma log_loop_closed (ids : list Z) (ser : option Port) :
  ser = None \/ (exists port, ser = Some port /\ is_open port = false) ->
  forall row : list field,
    fold_left
      (fun '(log_row, ser) act_id =>
         let '(pos, ser) := get_actual_position ser act_id in
         let '(force, ser) := get_actual_force ser act_id in
         (log_row ++ [or_na pos; or_na force], ser))
      ids (row, ser) =
    (row ++ repeat (Text "N/A") (2 * length ids), ser).
Proof.
  intros H. induction ids as [|a ids IH]; intros row.
  - simpl. now rewrite app_nil_r.
  - cbn [fold_left].
    destruct (read_request_refused ser a) as [Hp Hf];
      [destruct H as [H|H]; [now left|now right; left]|].
    rewrite Hp, Hf. rewrite IH. rewrite <- app_assoc. cbn [length].
    replace (2 * S (length ids)) with (S (S (2 * length ids))) by lia.
    reflexivity.
Qed.

(** X23. The header [start_logging] writes and every row one pass of
    [log_data_loop] builds have the same number of fields, one plus two per
    configured actuator, whatever the port does: field 0 is the timestamp,
    and for the k-th configured actuator the header names field 2k+1
    [actuator_<id>_pos] and field 2k+2 [actuator_<id>_force]. *)
Theorem log_row_matches_header (ACTUATOR_IDS : list Z) (ser : option Port)
    (current_time : string) :
  length (header ACTUATOR_IDS) = 1 + 2 * length ACTUATOR_IDS /\
  length (log_row ACTUATOR_IDS ser current_time).1
  = length (header ACTUATOR_IDS) /\
  header ACTUATOR_IDS !! 0 = Some "timestamp" /\
  (log_row ACTUATOR_IDS ser current_time).1 !! 0 = Some (Text current_time) /\
  forall k act_id,
    ACTUATOR_IDS !! k = Some act_id ->
    header ACTUATOR_IDS !! (2 * k + 1)
    = Some ("actuator_" +:+ pretty act_id +:+ "_pos") /\
    header ACTUATOR_IDS !! (2 * k + 2)
    = Some ("actuator_" +:+ pretty act_id +:+ "_force").
Proof.
  rewrite header_flat. cbn [length]. rewrite pairs_length.
  split; [lia|]. split; [|split; [reflexivity|split]].
  - unfold log_row.
    assert (H : forall ids (row : list field) ser,
              length (fold_left
                (fun '(log_row, ser) act_id =>
                   let '(pos, ser) := get_actual_position ser act_id in
                   let '(force, ser) := get_actual_force ser act_id in
                   (log_row ++ [or_na pos; or_na force], ser))
                ids (row, ser)).1 = length row + 2 * length ids).
    { clear. induction ids as [|a ids IH]; intros row ser;
        [simpl; lia|].
      cbn [fold_left].
      destruct (get_actual_position ser a) as [pos ser1].
      destruct (get_actual_force ser1 a) as [force ser2].
      rewrite IH, length_app. simpl. lia. }
    rewrite H. simpl. lia.
  - unfold log_row.
    assert (H : forall ids (row : list field) ser x,
              row !! 0 = Some x ->
              (fold_left
                (fun '(log_row, ser) act_id =>
                   let '(pos, ser) := get_actual_position ser act_id in
                   let '(force, ser) := get_actual_force ser act_id in
                   (log_row ++ [or_na pos; or_na force], ser))
                ids (row, ser)).1 !! 0 = Some x).
    { clear. induction ids as [|a ids IH]; intros row ser x Hx;
        [exact Hx|].
      cbn [fold_left].
      destruct (get_actual_position ser a) as [pos ser1].
      destruct (get_actual_force ser1 a) as [force ser2].
      apply IH. destruct row; [discriminate|exact Hx]. }
    now apply H.
  - intros k act_id Hk.
    destruct (pairs_lookup
                (fun act_id : Z => "actuator_" +:+ pretty act_id +:+ "_pos")
                (fun act_id : Z => "actuator_" +:+ pretty act_id +:+ "_force")
                ACTUATOR_IDS k) as [H1 H2].
    rewrite Hk in H1, H2.
    replace (2 * k + 1) with (S (2 * k)) by lia.
    replace (2 * k + 2) with (S (2 * k + 1)) by lia.
    split; [exact H1|exact H2].
Qed.

(** X24. One pass of [log_data_loop] over an open port, all configured
    actuator numbers being bytes, writes two requests per actuator
    (position, then force, in configuration order) and consumes two
    received blocks per actuator.  Blocks are paired with requests by
    arrival order alone: field j+1 of the row is what
    [_parse_2_byte_response] makes at offset 7 of the j-th block waiting at
    the start of the pass, and 'N/A' when that block is missing or shorter
    than nine bytes. *)
Theorem log_row_pairs_by_arrival (ACTUATOR_IDS : list Z) (port : Port)
    (current_time : string) :
  is_open port = true ->
  Forall (fun act_id => (0 <= act_id < 256)%Z) ACTUATOR_IDS ->
  (log_row ACTUATOR_IDS (Some port) current_time).2
  = Some (mkPort true
            (written port ++
             flat_map (fun act_id =>
                         [request_frame act_id REG_actualLocation;
                          request_frame act_id REG_actualForce])
               ACTUATOR_IDS)
            (drop (2 * length ACTUATOR_IDS) (incoming port))) /\
  forall j,
    j < 2 * length ACTUATOR_IDS ->
    (log_row ACTUATOR_IDS (Some port) current_time).1 !! (j + 1)
    = Some (or_na (_parse_2_byte_response (nth j (incoming port) []) 7)).
Proof.
  intros Ho Hids. unfold log_row.
  rewrite (log_loop_open ACTUATOR_IDS Hids [Text current_time] port Ho).
  cbn [fst snd]. split; [reflexivity|].
  intros j Hj. replace (j + 1) with (S j) by lia.
  cbn [app]. simpl lookup.
  rewrite list_lookup_fmap, lookup_seq_lt by exact Hj. reflexivity.
Qed.

(** X25. With no port object or with a closed port, one pass of
    [log_data_loop] writes and reads nothing and every field after the
    timestamp is 'N/A'. *)
Theorem log_row_without_port (ACTUATOR_IDS : list Z) (ser : option Port)
    (current_time : string) :
  ser = None \/ (exists port, ser = Some port /\ is_open port = false) ->
  log_row ACTUATOR_IDS ser current_time
  = (Text current_time :: repeat (Text "N/A") (2 * length ACTUATOR_IDS),
     ser).
Proof.
  intros H. unfold log_row.
  now rewrite (log_loop_closed ACTUATOR_IDS ser H [Text current_time]).
Qed.

(** ** Instances for the actuator log *)

Lemma log_row_pairs_by_arrival_witness :
  is_open busy = true /\
  Forall (fun act_id => (0 <= act_id < 256)%Z) [3; 4; 5]%Z /\
  (log_row [3; 4; 5]%Z (Some busy) "t").1 !! (0 + 1) = Some (Number 500) /\
  (log_row [3; 4; 5]%Z (Some busy) "t").1 !! (2 + 1) = Some (Text "N/A") /\
  (log_row [3; 4; 5]%Z (Some busy) "t").1 !! (3 + 1) = Some (Number 2312) /\
  (log_row [3; 4; 5]%Z (Some busy) "t").1 !! (5 + 1) = Some (Text "N/A").
Proof.
  assert (Hids : Forall (fun act_id => (0 <= act_id < 256)%Z) [3; 4; 5]%Z)
    by (repeat constructor; lia).
  split; [reflexivity|]. split; [exact Hids|].
  destruct (log_row_pairs_by_arrival [3; 4; 5]%Z busy "t" eq_refl Hids)
    as [_ H].
  split; [apply (H 0); simpl; lia|].
  split; [apply (H 2); simpl; lia|].
  split; [apply (H 3); simpl; lia|apply (H 5); simpl; lia].
Defined.

Lemma log_row_without_port_witness :
  log_row [3; 4; 5]%Z None "t"
  = ([Text "t"; Text "N/A"; Text "N/A"; Text "N/A"; Text "N/A"; Text "N/A";
      Text "N/A"], None).
Proof.
  apply (log_row_without_port [3; 4; 5]%Z None "t"). now left.
Defined.

Lemma log_row_matches_header_witness :
  [3; 4; 5]%Z !! 1 = Some 4%Z /\
  length (header [3; 4; 5]%Z) = 7 /\
  length (log_row [3; 4; 5]%Z (Some busy) "t").1 = 7 /\
  header [3; 4; 5]%Z !! (2 * 1 + 1) = Some "actuator_4_pos" /\
  header [3; 4; 5]%Z !! (2 * 1 + 2) = Some "actuator_4_force".
Proof.
  destruct (log_row_matches_header [3; 4; 5]%Z (Some busy) "t")
    as (H1 & H2 & _ & _ & H5).
  split; [reflexivity|]. split; [exact H1|].
  split; [rewrite H2; exact H1|]. exact (H5 1 4%Z eq_refl).
Defined.
